(** * wordgames: the GameSession durable object (src/game-session.js)

    A shallow embedding of the [GameSession] class: its in-memory state
    ([players], [gameState]), the sockets the runtime keeps for it, and its
    handlers [fetch], [webSocketMessage], [webSocketClose], [webSocketError],
    [handleSubmit] and [broadcast].  JavaScript handlers run to completion
    one at a time, so a session is a sequential state machine driven by the
    events the runtime delivers.  [deliver] and [run] follow one object from
    its first construction, with attachments the runtime accepts; [act] and
    [live] add what the runtime itself does: the cap on attachments and the
    object being built again while sockets stay connected. *)

From Stdlib Require Import List String Bool Arith Lia.
From Stdlib Require Import Ascii Decimal DecimalNat DecimalString.
Import ListNotations.
Local Open Scope string_scope.
Local Open Scope list_scope.
Local Open Scope nat_scope.

(** ** JavaScript values carried by [data.content] *)

Module Js.

(** What [JSON.parse(message).content] can be.  The server only stores the
    value, tests its truthiness and sends it back, so every value that is
    neither [null], a missing field nor a string is kept abstract together
    with its truthiness ([JOther true] for objects, arrays, [true] and
    non-zero numbers, [JOther false] for [false] and [0]). *)
Inductive JsVal : Type :=
| JNull
| JUndefined
| JStr (s : string)
| JOther (t : bool).

(** [p => p.submission] used as a condition. *)
Definition truthy (v : JsVal) : bool :=
  match v with
  | JNull | JUndefined => false
  | JStr s => negb (String.eqb s "")
  | JOther t => t
  end.

(** A value is absent when it is [null] or [undefined]. *)
Definition absent (v : JsVal) : bool :=
  match v with
  | JNull | JUndefined => true
  | _ => false
  end.

End Js.
Export Js.

(** ** The JavaScript [Map]: insertion-ordered, one entry per key *)

Module JsMap.
Section WithValue.
Context {V : Type}.

Definition t := list (string * V).

(** [m.set(k, v)]: an existing key keeps its position, a new key goes
    last. *)
Fixpoint set (k : string) (v : V) (m : t) : t :=
  match m with
  | [] => [(k, v)]
  | (k', v') :: m' =>
      if String.eqb k' k then (k, v) :: m' else (k', v') :: set k v m'
  end.

(** [m.delete(k)]. *)
Definition delete (k : string) (m : t) : t :=
  filter (fun e => negb (String.eqb (fst e) k)) m.

(** [m.size]. *)
Definition size (m : t) : nat := List.length m.

(** [[...m.values()]]. *)
Definition values (m : t) : list V := map snd m.

Definition keys (m : t) : list string := map fst m.

(** [m.get(k)]. *)
Definition get (k : string) (m : t) : option V :=
  option_map snd (find (fun e => String.eqb (fst e) k) m).

End WithValue.
Arguments t : clear implicits.
End JsMap.

(** ** Data of a session *)

Inductive Role : Type := question | answer.

(** [gameState].  The class assigns ["waiting"], ["playing"] and
    ["revealed"]; ["ready"] is the fourth value of the design document's
    state structure and is assigned nowhere. *)
Inductive GameState : Type := waiting | ready | playing | revealed.

Definition Role_eqb (a b : Role) : bool :=
  match a, b with
  | question, question | answer, answer => true
  | _, _ => false
  end.

Definition GameState_eqb (a b : GameState) : bool :=
  match a, b with
  | waiting, waiting | ready, ready | playing, playing
  | revealed, revealed => true
  | _, _ => false
  end.

(** A value of [this.players]: [{ role, submission }]. *)
Record Player : Type := mkPlayer {
  role : Role;
  submission : JsVal
}.

(** What [serializeAttachment] stores on a socket:
    [{ playerId, role, submission }]. *)
Record Attachment : Type := mkAttachment {
  playerId : string;
  att_role : Role;
  att_submission : JsVal
}.

(** A server-side socket accepted by [ctx.acceptWebSocket]: its identity as
    an object and its attachment, if any. *)
Record WebSocket : Type := mkWebSocket {
  handle : nat;
  attachment : option Attachment
}.

(** The JSON messages the class sends. *)
Inductive ServerMsg : Type :=
| msg_joined (pid : string) (r : Role) (playerCount : nat) (gs : GameState)
| msg_state (playerCount : nat) (gs : GameState)
| msg_submitted
| msg_reveal (q a : JsVal).

(** One [ws.send(msg)]: the socket and the message. *)
Definition Send : Type := (nat * ServerMsg)%type.

(** What [fetch] returns. *)
Inductive Response : Type :=
| ExpectedWebSocket          (* status 400 *)
| GameIsFull                 (* status 403 *)
| SwitchingProtocols (client : nat).  (* status 101 *)

(** The object's fields, together with the runtime's list of accepted, not
    yet closed sockets ([ctx.getWebSockets()]) and the identity the next
    [new WebSocketPair()] gets. *)
Record GameSession : Type := mkGameSession {
  players : JsMap.t Player;
  gameState : GameState;
  webSockets : list WebSocket;
  nextHandle : nat
}.

(** [constructor], run for an object that has no socket yet: the first
    time the object is built.  The runtime can build the object again
    later while sockets are still connected; see [reconstruct]. *)
Definition constructor : GameSession :=
  {| players := []; gameState := waiting; webSockets := []; nextHandle := 0 |}.

(** ** Methods *)

(** [broadcast(message)]: one [send] on every socket of
    [ctx.getWebSockets()]; a [send] that throws is swallowed.  The sockets
    are taken in the order they were accepted; the order the runtime lists
    them in only shows in the order of the sends of one broadcast. *)
Definition broadcast (s : GameSession) (m : ServerMsg) : list Send :=
  map (fun ws => (handle ws, m)) (webSockets s).

(** [fetch(request)].  [upgrade] tells whether the [Upgrade] header is
    ["websocket"]; [uuid] is what [crypto.randomUUID()] returns when the
    call is reached. *)
Definition fetch (s : GameSession) (upgrade : bool) (uuid : string)
  : GameSession * Response * list Send :=
  if negb upgrade then (s, ExpectedWebSocket, [])
  else if 2 <=? JsMap.size (players s) then (s, GameIsFull, [])
  else
    let server := nextHandle s in
    let r := if JsMap.size (players s) =? 0 then question else answer in
    let ws := {| handle := server;
                 attachment := Some (mkAttachment uuid r JNull) |} in
    let players' := JsMap.set uuid (mkPlayer r JNull) (players s) in
    let gs := if JsMap.size players' =? 2 then playing else gameState s in
    let s' := {| players := players';
                 gameState := gs;
                 webSockets := webSockets s ++ [ws];
                 nextHandle := S server |} in
    (s', SwitchingProtocols server,
     (server, msg_joined uuid r (JsMap.size players') gs)
       :: broadcast s' (msg_state (JsMap.size players') gs)).

(** [ws.serializeAttachment(a)] on the socket with identity [h], for an
    attachment the runtime accepts.  The runtime caps the size of an
    attachment and throws above the cap; see [handleSubmit_capped]. *)
Definition serializeAttachment (h : nat) (a : Attachment)
    (l : list WebSocket) : list WebSocket :=
  map (fun ws => if handle ws =? h
                 then {| handle := h; attachment := Some a |} else ws) l.

(** [ws.close()]: the socket leaves [webSockets], the sockets the object
    has not closed.  The runtime may keep a closed socket in
    [ctx.getWebSockets()] while the connection is torn down, and
    [broadcast] then still calls [send] on it (its [try]/[catch] is there
    for that); those calls are left out of the outputs, and nothing below
    is stated about what is sent on a socket after the object closed it. *)
Definition close (h : nat) (l : list WebSocket) : list WebSocket :=
  filter (fun ws => negb (handle ws =? h)) l.

(** [handleSubmit(ws, attachment, content)].  When the reveal condition
    holds but no player has role ["question"] (or none has ["answer"]),
    [question.submission] throws a [TypeError]: [gameState] is already
    ["revealed"] and nothing is broadcast. *)
Definition handleSubmit (s : GameSession) (h : nat)
    (att : option Attachment) (content : JsVal) : GameSession * list Send :=
  if negb (GameState_eqb (gameState s) playing) then (s, [])
  else
    match att with
    | None => (s, [])     (* attachment.submission = ... throws *)
    | Some a =>
        let a' := mkAttachment (playerId a) (att_role a) content in
        let sockets' := serializeAttachment h a' (webSockets s) in
        let players' :=
          JsMap.set (playerId a) (mkPlayer (att_role a) content) (players s) in
        let s1 := {| players := players';
                     gameState := gameState s;
                     webSockets := sockets';
                     nextHandle := nextHandle s |} in
        let ack := [(h, msg_submitted)] in
        let allPlayers := JsMap.values players' in
        if (List.length allPlayers =? 2)
           && forallb (fun p => truthy (submission p)) allPlayers
        then
          let s2 := {| players := players';
                       gameState := revealed;
                       webSockets := sockets';
                       nextHandle := nextHandle s |} in
          match find (fun p => Role_eqb (role p) question) allPlayers,
                find (fun p => Role_eqb (role p) answer) allPlayers with
          | Some q, Some an =>
              (s2, ack ++ broadcast s2
                             (msg_reveal (submission q) (submission an)))
          | _, _ => (s2, ack)
          end
        else (s1, ack)
    end.

(** A parsed client message: [data.type === "submit"] with its
    [data.content], or any other type, which the [switch] ignores (a
    message that is not JSON makes [JSON.parse] throw before anything is
    done, which leaves the session as it was too). *)
Inductive ClientMsg : Type :=
| submit (content : JsVal)
| other_type.

(** [webSocketMessage(ws, message)]. *)
Definition webSocketMessage (s : GameSession) (ws : WebSocket)
    (data : ClientMsg) : GameSession * list Send :=
  match data with
  | submit content => handleSubmit s (handle ws) (attachment ws) content
  | other_type => (s, [])
  end.

(** [webSocketClose(ws, code, reason)].  The conditional
    [this.players.size > 0 ? "waiting" : "waiting"] is kept as written.  The
    broadcast comes before [ws.close()], so the closing socket is still in
    the runtime's list and is sent the message like the others. *)
Definition webSocketClose (s : GameSession) (ws : WebSocket)
  : GameSession * list Send :=
  match attachment ws with
  | Some a =>
      let players' := JsMap.delete (playerId a) (players s) in
      let gs :=
        if negb (GameState_eqb (gameState s) revealed)
        then (if 0 <? JsMap.size players' then waiting else waiting)
        else gameState s in
      let s1 := {| players := players';
                   gameState := gs;
                   webSockets := webSockets s;
                   nextHandle := nextHandle s |} in
      ({| players := players';
          gameState := gs;
          webSockets := close (handle ws) (webSockets s);
          nextHandle := nextHandle s |},
       broadcast s1 (msg_state (JsMap.size players') gs))
  | None =>
      ({| players := players s;
          gameState := gameState s;
          webSockets := close (handle ws) (webSockets s);
          nextHandle := nextHandle s |}, [])
  end.

(** [webSocketError(ws, error)]. *)
Definition webSocketError (s : GameSession) (ws : WebSocket)
  : GameSession * list Send :=
  let players' :=
    match attachment ws with
    | Some a => JsMap.delete (playerId a) (players s)
    | None => players s
    end in
  ({| players := players';
      gameState := gameState s;
      webSockets := close (handle ws) (webSockets s);
      nextHandle := nextHandle s |}, []).

(** ** The runtime: events delivered to the object *)

Inductive Event : Type :=
| Fetch (upgrade : bool) (uuid : string)
| Message (h : nat) (data : ClientMsg)
| Close (h : nat)
| Error (h : nat).

(** The socket an event is about, with the attachment it has now
    ([ws.deserializeAttachment()]). *)
Definition socket (s : GameSession) (h : nat) : option WebSocket :=
  find (fun ws => handle ws =? h) (webSockets s).

(** One event.  The runtime calls a socket handler only for a socket of its
    list; the response of [fetch] goes to the caller and is dropped here. *)
Definition deliver (s : GameSession) (e : Event) : GameSession * list Send :=
  match e with
  | Fetch upgrade uuid =>
      let '(s', _, out) := fetch s upgrade uuid in (s', out)
  | Message h data =>
      match socket s h with
      | Some ws => webSocketMessage s ws data
      | None => (s, [])
      end
  | Close h =>
      match socket s h with
      | Some ws => webSocketClose s ws
      | None => (s, [])
      end
  | Error h =>
      match socket s h with
      | Some ws => webSocketError s ws
      | None => (s, [])
      end
  end.

(** Running a sequence of events: the final state and, for each event, what
    its handler sent. *)
Fixpoint run (s : GameSession) (evs : list Event)
  : GameSession * list (list Send) :=
  match evs with
  | [] => (s, [])
  | e :: evs' =>
      let (s1, out) := deliver s e in
      let (s2, outs) := run s1 evs' in
      (s2, out :: outs)
  end.

Definition final (evs : list Event) : GameSession :=
  fst (run constructor evs).

Definition sent (evs : list Event) : list (list Send) :=
  snd (run constructor evs).

(** The identifiers the requests of a sequence carry.  A rejected request
    does not reach [crypto.randomUUID()]; any unused identifier can stand
    in its event. *)
Fixpoint uuids (evs : list Event) : list string :=
  match evs with
  | [] => []
  | Fetch _ u :: evs' => u :: uuids evs'
  | _ :: evs' => uuids evs'
  end.

Fixpoint distinct (l : list string) : bool :=
  match l with
  | [] => true
  | x :: l' => negb (existsb (String.eqb x) l') && distinct l'
  end.

(** [crypto.randomUUID()] never returns the same identifier twice: the
    identifiers of a sequence are pairwise distinct. *)
Definition fresh_uuids (evs : list Event) : bool := distinct (uuids evs).

Definition is_error (e : Event) : bool :=
  match e with Error _ => true | _ => false end.

Definition is_fetch (e : Event) : bool :=
  match e with Fetch _ _ => true | _ => false end.

(** ** Observations used in the statements *)

Definition is_reveal (m : ServerMsg) : bool :=
  match m with msg_reveal _ _ => true | _ => false end.

(** Whether a handler's output contains a reveal broadcast. *)
Definition reveals (out : list Send) : bool :=
  existsb (fun x => is_reveal (snd x)) out.

(** The number of handler runs of a sequence that broadcast a reveal. *)
Definition reveal_count (outs : list (list Send)) : nat :=
  List.length (filter reveals outs).

(** How many participants hold a role. *)
Definition holders (r : Role) (s : GameSession) : nat :=
  List.length (filter (fun p => Role_eqb (role p) r) (JsMap.values (players s))).

(** ** The states a session goes through

    With fresh identifiers the map and the socket list stay in step: every
    open socket carries the attachment of exactly one map entry, in the same
    order, and there are at most two of them.  [used] bounds the identifiers
    handed out so far; [strict] is set for sequences in which no socket
    terminates with an error, where ["playing"] means two players. *)

Definition entry (p : string) (r : Role) (v : JsVal) : string * Player :=
  (p, mkPlayer r v).

Definition sock (h : nat) (p : string) (r : Role) (v : JsVal) : WebSocket :=
  mkWebSocket h (Some (mkAttachment p r v)).

Inductive shape (strict : bool) (used : list string) : GameSession -> Prop :=
| shape_empty gs n :
    gs <> ready -> (strict = true -> gs <> playing) ->
    shape strict used (mkGameSession [] gs [] n)
| shape_one gs n h p r v :
    gs <> ready -> (strict = true -> gs <> playing) ->
    h < n -> In p used ->
    shape strict used (mkGameSession [entry p r v] gs [sock h p r v] n)
| shape_two gs n h1 h2 p1 p2 r1 v1 v2 :
    gs = playing \/ gs = revealed ->
    h1 < n -> h2 < n -> h1 <> h2 -> p1 <> p2 ->
    In p1 used -> In p2 used ->
    shape strict used
          (mkGameSession [entry p1 r1 v1; entry p2 answer v2] gs
                         [sock h1 p1 r1 v1; sock h2 p2 answer v2] n).

(** ** Further notions used in the statements *)

(** Sequences in which no socket terminates with an error. *)
Definition error_free (evs : list Event) : bool :=
  forallb (fun e => negb (is_error e)) evs.

(** Events that admit a participant when the session has room. *)
Definition joining (e : Event) : bool :=
  match e with Fetch true _ => true | _ => false end.

(** A sequence made of connection requests only. *)
Definition connects (reqs : list (bool * string)) : list Event :=
  map (fun r => Fetch (fst r) (snd r)) reqs.

(** The role the map holds for an identifier. *)
Definition role_of (u : string) (s : GameSession) : option Role :=
  option_map role (JsMap.get u (players s)).

(** The state [handleSubmit] leaves when it records [content]. *)
Definition recorded (s : GameSession) (h : nat) (a : Attachment)
    (content : JsVal) (gs : GameState) : GameSession :=
  {| players := JsMap.set (playerId a) (mkPlayer (att_role a) content)
                          (players s);
     gameState := gs;
     webSockets := serializeAttachment h
                     (mkAttachment (playerId a) (att_role a) content)
                     (webSockets s);
     nextHandle := nextHandle s |}.

(** The condition [handleSubmit] tests after recording:
    [allPlayers.length === 2 && allPlayers.every(p => p.submission)]. *)
Definition all_submitted (m : JsMap.t Player) : bool :=
  (List.length (JsMap.values m) =? 2)
  && forallb (fun p => truthy (submission p)) (JsMap.values m).

(** [p => p.role === "question"] and [p => p.role === "answer"]. *)
Definition is_question (p : Player) : bool := Role_eqb (role p) question.
Definition is_answer (p : Player) : bool := Role_eqb (role p) answer.

(** ** Sample sequences of events

    Sockets get the identities 0, 1, 2 in the order they are accepted. *)

(** One participant; two participants; a third request on a full session. *)
Definition tr_one : list Event := [Fetch true "A"].
Definition tr_pair : list Event := [Fetch true "A"; Fetch true "B"].
Definition tr_full : list Event := tr_pair ++ [Fetch true "C"].

(** The first participant submits twice. *)
Definition tr_resubmit : list Event :=
  tr_pair ++ [Message 0 (submit (JStr "hi")); Message 0 (submit (JStr "bye"))].

(** The second participant's socket terminates with an error. *)
Definition tr_error : list Event := tr_pair ++ [Error 1].

(** The first participant leaves and a third connects; then both submit. *)
Definition tr_rejoin : list Event := tr_pair ++ [Close 0; Fetch true "C"].
Definition tr_rejoin_submit : list Event :=
  tr_rejoin ++ [Message 1 (submit (JStr "x")); Message 2 (submit (JStr "y"))].

(** The first participant leaves before the second connects. *)
Definition tr_second_alone : list Event :=
  [Fetch true "A"; Close 0; Fetch true "B"].

(** One participant submits the empty string, the other a text. *)
Definition tr_empty_side : list Event :=
  tr_pair ++ [Message 0 (submit (JStr "")); Message 1 (submit (JStr "x"))].

(** A reveal, then the second participant leaves, a third connects and
    submits. *)
Definition tr_twice : list Event :=
  tr_pair ++ [Message 0 (submit (JStr "q")); Message 1 (submit (JStr "a"));
              Close 1; Fetch true "C"; Message 2 (submit (JStr "a2"))].

(** The holder of "answer" has submitted first; both have submitted. *)
Definition tr_first_in : list Event :=
  tr_pair ++ [Message 1 (submit (JStr "a"))].
Definition tr_revealed : list Event :=
  tr_pair ++ [Message 0 (submit (JStr "q")); Message 1 (submit (JStr "a"))].

(** ** The runtime around the object

    Two things the runtime does to an object that uses
    [ctx.acceptWebSocket]: it refuses attachments above a size cap, and it
    can evict the object from memory between two events and build it again
    for the next one. *)

(** The runtime builds the object again: [constructor] runs, so [players]
    is a new empty map and [gameState] is ["waiting"], while the accepted
    sockets stay connected and keep their attachments. *)
Definition reconstruct (s : GameSession) : GameSession :=
  {| players := players constructor;
     gameState := gameState constructor;
     webSockets := webSockets s;
     nextHandle := nextHandle s |}.

(** What the runtime does with the object: it calls a handler for an
    event, or builds the object again. *)
Inductive Activity : Type :=
| Handle (e : Event)
| Reconstruct.

Section Runtime.

(** Whether [ws.serializeAttachment] throws for an attachment that carries
    this submission.  [playerId] is a UUID and [role] one of two words, so
    the submission decides; an attachment without a submission fits.  The
    cap is the runtime's and is taken as given. *)
Variable oversize : JsVal -> bool.

(** [handleSubmit] under the cap: after the guard on [gameState],
    [ws.serializeAttachment(attachment)] throws for an oversize submission,
    before [players.set] and before the acknowledgement. *)
Definition handleSubmit_capped (s : GameSession) (h : nat)
    (att : option Attachment) (content : JsVal) : GameSession * list Send :=
  if negb (GameState_eqb (gameState s) playing) then (s, [])
  else if oversize content then (s, [])
  else handleSubmit s h att content.

(** [webSocketMessage] under the cap. *)
Definition webSocketMessage_capped (s : GameSession) (ws : WebSocket)
    (data : ClientMsg) : GameSession * list Send :=
  match data with
  | submit content =>
      handleSubmit_capped s (handle ws) (attachment ws) content
  | other_type => (s, [])
  end.

(** One activity of the runtime. *)
Definition act (s : GameSession) (a : Activity) : GameSession * list Send :=
  match a with
  | Reconstruct => (reconstruct s, [])
  | Handle (Message h data) =>
      match socket s h with
      | Some ws => webSocketMessage_capped s ws data
      | None => (s, [])
      end
  | Handle e => deliver s e
  end.

(** The life of an object: the state after a sequence of activities and
    what each of them sent. *)
Fixpoint live (s : GameSession) (acts : list Activity)
  : GameSession * list (list Send) :=
  match acts with
  | [] => (s, [])
  | a :: acts' =>
      let (s1, out) := act s a in
      let (s2, outs) := live s1 acts' in
      (s2, out :: outs)
  end.

(** Whether [fetch] accepts the connection of an event. *)
Definition accepted (s : GameSession) (e : Event) : bool :=
  match e with
  | Fetch upgrade uuid =>
      match snd (fst (fetch s upgrade uuid)) with
      | SwitchingProtocols _ => true
      | _ => false
      end
  | _ => false
  end.

(** Along a life, no connection is accepted. *)
Fixpoint no_admission (s : GameSession) (acts : list Activity) : bool :=
  match acts with
  | [] => true
  | a :: acts' =>
      match a with
      | Handle e => negb (accepted s e)
      | Reconstruct => true
      end && no_admission (fst (act s a)) acts'
  end.

(** Along a life, the object is built again only while no socket is
    connected. *)
Fixpoint idle_reconstructs (s : GameSession) (acts : list Activity) : bool :=
  match acts with
  | [] => true
  | a :: acts' =>
      match a with
      | Reconstruct =>
          match webSockets s with [] => true | _ :: _ => false end
      | Handle _ => true
      end && idle_reconstructs (fst (act s a)) acts'
  end.

End Runtime.

(** The events of a life. *)
Fixpoint events_of (acts : list Activity) : list Event :=
  match acts with
  | [] => []
  | Handle e :: acts' => e :: events_of acts'
  | Reconstruct :: acts' => events_of acts'
  end.

Definition is_reconstruct (a : Activity) : bool :=
  match a with Reconstruct => true | Handle _ => false end.

(** A sample cap: strings of more than eight characters are oversize. *)
Definition sample_cap (v : JsVal) : bool :=
  match v with
  | JStr t => 8 <? String.length t
  | _ => false
  end.

(** The object is built again while two sockets are connected; two more
    connections are accepted; one of the old sockets closes. *)
Definition life_stale : list Activity :=
  [Handle (Fetch true "A"); Handle (Fetch true "B"); Reconstruct;
   Handle (Fetch true "C"); Handle (Fetch true "D"); Handle (Close 0)].

(** A reveal, then the object is built again while nobody is connected. *)
Definition life_idle : list Activity :=
  map Handle tr_revealed ++ [Handle (Close 0); Handle (Close 1); Reconstruct;
                             Handle (Fetch true "C")].

(** After the reveal: a message, a rejected request, a close. *)
Definition life_after : list Activity :=
  [Handle (Message 0 (submit (JStr "again"))); Handle (Fetch true "C");
   Handle (Fetch false "D"); Handle (Close 1)].

(** ** The worker (src/index.js) and the game identifiers (src/utils.js) *)

Module Worker.

(** [.] of a regular expression without the [s] flag: any character but a
    line terminator.  [url.pathname] is ASCII, so of the four line
    terminators only LF and CR can be written in a path. *)
Definition is_dot (c : ascii) : bool :=
  negb (Ascii.eqb c "010"%char || Ascii.eqb c "013"%char).

Fixpoint all_chars (f : ascii -> bool) (s : string) : bool :=
  match s with
  | EmptyString => true
  | String c s' => f c && all_chars f s'
  end.

(** What is left of [s] after the literal [pre], when [s] starts with it. *)
Fixpoint strip_prefix (pre s : string) : option string :=
  match pre, s with
  | EmptyString, _ => Some s
  | String a pre', String b s' =>
      if Ascii.eqb a b then strip_prefix pre' s' else None
  | String _ _, EmptyString => None
  end.

(** [path.match(/^<pre>(.+)$/)]: the capture group [m[1]] when the path
    matches, [None] for [null]. *)
Definition match_rest (pre path : string) : option string :=
  match strip_prefix pre path with
  | Some rest =>
      if negb (String.eqb rest "") && all_chars is_dot rest
      then Some rest else None
  | None => None
  end.

(** Where the worker's [fetch] sends a request, by [url.pathname]. *)
Inductive Route : Type :=
| ToSession (gameId : string)
| GamePage
| StaticAssets.

Definition route (path : string) : Route :=
  match match_rest "/ws/" path with
  | Some gameId => ToSession gameId
  | None =>
      match match_rest "/game/" path with
      | Some _ => GamePage
      | None => StaticAssets
      end
  end.

(** [env.GAME_SESSION]: one object per name,
    [get(idFromName(name))], built by [constructor] when first used. *)
Definition Namespace : Type := string -> GameSession.

Definition fresh_namespace : Namespace := fun _ => constructor.

Definition put (ns : Namespace) (name : string) (s : GameSession)
  : Namespace :=
  fun n => if String.eqb n name then s else ns n.

(** What the worker answers: the session's response, the game page
    ([/game.html] served as [text/html]) or a static asset. *)
Inductive Reply : Type :=
| SessionReply (r : Response)
| GameHtml
| Asset.

(** The worker's [fetch(request, env)]. *)
Definition fetch (ns : Namespace) (path : string) (upgrade : bool)
    (uuid : string) : Namespace * Reply * list Send :=
  match route path with
  | ToSession gameId =>
      let '(s', r, out) := fetch (ns gameId) upgrade uuid in
      (put ns gameId s', SessionReply r, out)
  | GamePage => (ns, GameHtml, [])
  | StaticAssets => (ns, Asset, [])
  end.

(** What the runtime reports about an accepted socket. *)
Inductive Signal : Type :=
| Incoming (data : ClientMsg)
| Closed
| Failed.

Definition to_event (h : nat) (k : Signal) : Event :=
  match k with
  | Incoming data => Message h data
  | Closed => Close h
  | Failed => Error h
  end.

(** What happens in a deployment: a request to the worker, or a signal on
    a socket of the session with some name. *)
Inductive WorldEvent : Type :=
| Request (path : string) (upgrade : bool) (uuid : string)
| OnSocket (gameId : string) (h : nat) (k : Signal).

Definition step (ns : Namespace) (we : WorldEvent) : Namespace :=
  match we with
  | Request path upgrade uuid => fst (fst (fetch ns path upgrade uuid))
  | OnSocket gameId h k =>
      put ns gameId (fst (deliver (ns gameId) (to_event h k)))
  end.

Definition world (wevs : list WorldEvent) : Namespace :=
  fold_left step wevs fresh_namespace.

End Worker.

Module Utils.

Definition adjectives : list string :=
  ["quick"; "lazy"; "happy"; "sad"; "brave"; "calm"; "eager"; "fierce";
   "gentle"; "jolly"; "kind"; "lively"; "merry"; "noble"; "proud";
   "silly"; "witty"; "bold"; "clever"; "daring"].

Definition nouns : list string :=
  ["fox"; "bear"; "wolf"; "hawk"; "deer"; "owl"; "lion"; "tiger";
   "whale"; "eagle"; "otter"; "panda"; "raven"; "shark"; "snake";
   "falcon"; "badger"; "crane"; "moose"; "bison"].

(** [`${a[i]}`]: the element, or ["undefined"] out of range. *)
Definition element (a : list string) (i : nat) : string :=
  nth i a "undefined".

(** [`${num}`] for a natural number: its decimal digits. *)
Definition number_to_string (n : nat) : string :=
  NilEmpty.string_of_uint (Nat.to_uint n).

(** [generateGameId()].  [i], [j] and [k] are the values of
    [Math.floor(Math.random() * adjectives.length)],
    [Math.floor(Math.random() * nouns.length)] and
    [Math.floor(Math.random() * 1000)]. *)
Definition generateGameId (i j k : nat) : string :=
  String.append (element adjectives i)
    (String.append "-"
       (String.append (element nouns j)
          (String.append "-" (number_to_string k)))).

(** The characters a generated identifier is made of. *)
Definition id_char (c : ascii) : bool :=
  let n := nat_of_ascii c in
  ((97 <=? n) && (n <=? 122)) || ((48 <=? n) && (n <=? 57)) || (n =? 45).

End Utils.

(** ** Further observations on a session *)

Definition handles (s : GameSession) : list nat :=
  map handle (webSockets s).

(** The characters of the adjectives and nouns: anything but a hyphen. *)
Definition no_dash (c : ascii) : bool := negb (Ascii.eqb c "-"%char).

(** * Proofs *)

(** ** Comparisons *)

Lemma GameState_eqb_eq (a b : GameState) : GameState_eqb a b = true <-> a = b.
Proof. destruct a, b; simpl; split; congruence. Qed.

Lemma GameState_eqb_neq (a b : GameState) :
  GameState_eqb a b = false <-> a <> b.
Proof. destruct a, b; simpl; split; congruence. Qed.

Lemma distinct_NoDup (l : list string) : distinct l = true <-> NoDup l.
Proof.
  induction l as [|x l IH]; simpl.
  - split; [constructor | reflexivity].
  - rewrite andb_true_iff, negb_true_iff, IH. split.
    + intros [Hx Hl]. constructor; [|assumption].
      intro Hin. assert (existsb (String.eqb x) l = true) as E.
      { apply existsb_exists. exists x. split; [assumption|apply String.eqb_refl]. }
      congruence.
    + intros Hnd. inversion Hnd as [|? ? Hx Hl]; subst. split; [|assumption].
      destruct (existsb (String.eqb x) l) eqn:E; [|reflexivity].
      apply existsb_exists in E. destruct E as [y [Hy Exy]].
      apply String.eqb_eq in Exy. subst y. contradiction.
Qed.

(** ** The map *)

Lemma set_size_le {V} (k : string) (v : V) (m : JsMap.t V) :
  JsMap.size (JsMap.set k v m) <= S (JsMap.size m).
Proof.
  unfold JsMap.size. induction m as [|[k' v'] m IH]; simpl.
  - lia.
  - destruct (String.eqb k' k); simpl; lia.
Qed.

Lemma get_set {V} (k : string) (v : V) (m : JsMap.t V) :
  JsMap.get k (JsMap.set k v m) = Some v.
Proof.
  unfold JsMap.get. induction m as [|[k' v'] m IH]; simpl.
  - rewrite String.eqb_refl. reflexivity.
  - destruct (String.eqb k' k) eqn:E; simpl.
    + rewrite String.eqb_refl. reflexivity.
    + rewrite E. exact IH.
Qed.

(** ** Every event keeps the shape of the session *)

Lemma shape_mono (b : bool) (used used' : list string) (s : GameSession) :
  shape b used s -> incl used used' -> shape b used' s.
Proof.
  intros H I. destruct H; constructor; auto.
Qed.

Lemma eqb_nat_false (a b : nat) :
  a <> b -> (a =? b) = false /\ (b =? a) = false.
Proof. intro H. split; apply Nat.eqb_neq; auto. Qed.

Lemma eqb_str_false (a b : string) :
  a <> b -> String.eqb a b = false /\ String.eqb b a = false.
Proof. intro H. split; apply String.eqb_neq; auto. Qed.

(** Turn the disequalities at hand into the outcomes of the tests the
    handlers make, and run the handlers on them. *)
Ltac learn_tests :=
  repeat match goal with
  | H : ?a <> ?b |- _ =>
      lazymatch type of a with
      | nat =>
          lazymatch goal with
          | _ : (a =? b) = false |- _ => fail
          | _ => destruct (eqb_nat_false a b H) as [? ?]
          end
      | string =>
          lazymatch goal with
          | _ : String.eqb a b = false |- _ => fail
          | _ => destruct (eqb_str_false a b H) as [? ?]
          end
      end
  end.

Ltac run_tests :=
  repeat (simpl;
          rewrite ?Nat.eqb_refl, ?String.eqb_refl;
          repeat match goal with
          | H : (_ =? _) = false |- _ => rewrite H
          | H : String.eqb _ _ = false |- _ => rewrite H
          end; simpl).

Ltac shape_done :=
  first [ apply shape_empty | apply shape_one | apply shape_two ];
  simpl; auto; try lia; try congruence; try (intros; congruence).

Ltac shape_cases Hs :=
  destruct Hs as [gs n Hgs Hst | gs n h0 p r v Hgs Hst Hh Hp
                 | gs n h1 h2 p1 p2 r1 v1 v2 Hgs Hh1 Hh2 Hh Hp Hp1 Hp2].

Ltac this_socket E :=
  apply Nat.eqb_eq in E; subst.

Lemma shape_step (b : bool) (used : list string) (s : GameSession)
    (e : Event) :
  shape b used s ->
  (forall up u, e = Fetch up u -> ~ In u used) ->
  (b = true -> is_error e = false) ->
  shape b (uuids [e] ++ used) (fst (deliver s e)).
Proof.
  intros Hs Hfresh Hb.
  destruct e as [up u | h data | h | h].
  - assert (~ In u used) as Hu by (eapply Hfresh; reflexivity).
    shape_cases Hs; destruct up; simpl; try (shape_done; fail).
    assert (p <> u) as Hpu by (intro; subst; contradiction).
    unfold fetch. learn_tests. run_tests. shape_done.
  - simpl uuids. simpl app. unfold deliver, socket.
    shape_cases Hs; simpl.
    + shape_done.
    + destruct (h0 =? h) eqn:E; simpl; [|shape_done].
      this_socket E.
      destruct data as [c|]; simpl; [|shape_done].
      unfold handleSubmit; destruct gs; simpl; try (shape_done; fail).
      run_tests. shape_done.
    + learn_tests.
      destruct (h1 =? h) eqn:E1; simpl.
      * this_socket E1.
        destruct data as [c|]; simpl; [|shape_done].
        unfold handleSubmit; destruct Hgs; subst gs; simpl; [|shape_done].
        run_tests.
        destruct (truthy c), (truthy v2), r1; simpl; shape_done.
      * destruct (h2 =? h) eqn:E2; simpl; [|shape_done].
        this_socket E2.
        destruct data as [c|]; simpl; [|shape_done].
        unfold handleSubmit; destruct Hgs; subst gs; simpl; [|shape_done].
        run_tests.
        destruct (truthy c), (truthy v1), r1; simpl; shape_done.
  - simpl uuids. simpl app. unfold deliver, socket.
    shape_cases Hs; simpl.
    + shape_done.
    + destruct (h0 =? h) eqn:E; simpl; [|shape_done].
      this_socket E.
      unfold webSocketClose, close, JsMap.delete. run_tests.
      destruct gs; simpl; shape_done.
    + learn_tests.
      destruct (h1 =? h) eqn:E1; simpl.
      * this_socket E1.
        unfold webSocketClose, close, JsMap.delete. run_tests.
        destruct Hgs; subst gs; simpl; shape_done.
      * destruct (h2 =? h) eqn:E2; simpl; [|shape_done].
        this_socket E2.
        unfold webSocketClose, close, JsMap.delete. run_tests.
        destruct Hgs; subst gs; simpl; shape_done.
  - destruct b; [specialize (Hb eq_refl); discriminate|].
    simpl uuids. simpl app. unfold deliver, socket.
    shape_cases Hs; simpl.
    + shape_done.
    + destruct (h0 =? h) eqn:E; simpl; [|shape_done].
      this_socket E.
      unfold webSocketError, close, JsMap.delete. run_tests.
      shape_done.
    + learn_tests.
      destruct (h1 =? h) eqn:E1; simpl.
      * this_socket E1.
        unfold webSocketError, close, JsMap.delete. run_tests.
        destruct Hgs; subst gs; simpl; shape_done.
      * destruct (h2 =? h) eqn:E2; simpl; [|shape_done].
        this_socket E2.
        unfold webSocketError, close, JsMap.delete. run_tests.
        destruct Hgs; subst gs; simpl; shape_done.
Qed.

(** ** Runs *)

Lemma run_app (s : GameSession) (a b : list Event) :
  run s (a ++ b) =
  (fst (run (fst (run s a)) b), snd (run s a) ++ snd (run (fst (run s a)) b)).
Proof.
  revert s. induction a as [|e a IH]; intros s; simpl.
  - destruct (run s b); reflexivity.
  - destruct (deliver s e) as [s1 out]. rewrite IH.
    destruct (run s1 a) as [s2 outs]. simpl. reflexivity.
Qed.

Lemma run_cons (s : GameSession) (e : Event) (evs : list Event) :
  run s (e :: evs) =
  (fst (run (fst (deliver s e)) evs),
   snd (deliver s e) :: snd (run (fst (deliver s e)) evs)).
Proof.
  simpl. destruct (deliver s e) as [s1 out]. simpl.
  destruct (run s1 evs); reflexivity.
Qed.

Lemma shape_run (b : bool) (evs : list Event) :
  forall (used : list string) (s : GameSession),
    shape b used s ->
    NoDup (uuids evs) ->
    (forall u, In u (uuids evs) -> ~ In u used) ->
    (b = true -> error_free evs = true) ->
    shape b (uuids evs ++ used) (fst (run s evs)).
Proof.
  induction evs as [|e evs IH]; intros used s Hs Hnd Hfresh Hb.
  - exact Hs.
  - rewrite run_cons. simpl fst.
    assert (shape b (uuids [e] ++ used) (fst (deliver s e))) as H1.
    { apply shape_step; auto.
      - intros up u ->. apply Hfresh. simpl. auto.
      - intros Hbt. specialize (Hb Hbt). simpl in Hb.
        apply andb_true_iff in Hb. destruct Hb as [Hb _].
        apply negb_true_iff in Hb. exact Hb. }
    assert (uuids (e :: evs) = uuids [e] ++ uuids evs) as Hsplit
        by (destruct e; reflexivity).
    rewrite Hsplit in *.
    apply NoDup_app_remove_l in Hnd as Hnd2.
    apply (shape_mono b (uuids evs ++ uuids [e] ++ used)).
    + apply IH; auto.
      * intros u Hu Hin. apply in_app_or in Hin. destruct Hin as [Hin|Hin].
        -- destruct e; simpl in *; try contradiction.
           destruct Hin as [->|[]]. inversion Hnd; contradiction.
        -- apply (Hfresh u); [apply in_or_app; auto | exact Hin].
      * intros Hbt. specialize (Hb Hbt). simpl in Hb.
        apply andb_true_iff in Hb. tauto.
    + intros x Hx. rewrite !in_app_iff in *. tauto.
Qed.

Lemma shape_final (evs : list Event) :
  fresh_uuids evs = true -> shape false (uuids evs) (final evs).
Proof.
  intros Hf. apply distinct_NoDup in Hf.
  rewrite <- (app_nil_r (uuids evs)). apply shape_run; auto.
  - constructor; discriminate.
  - discriminate.
Qed.

Lemma shape_final_strict (evs : list Event) :
  fresh_uuids evs = true -> error_free evs = true ->
  shape true (uuids evs) (final evs).
Proof.
  intros Hf He. apply distinct_NoDup in Hf.
  rewrite <- (app_nil_r (uuids evs)). apply shape_run; auto.
  constructor; discriminate.
Qed.

(** ** Capacity and ignored submits *)

Lemma fetch_size_le (s : GameSession) (up : bool) (u : string) :
  JsMap.size (players s) <= 2 ->
  JsMap.size (players (fst (deliver s (Fetch up u)))) <= 2.
Proof.
  intros H. unfold deliver, fetch. destruct up; cbn [negb]; [|exact H].
  destruct (2 <=? JsMap.size (players s)) eqn:E; [exact H|].
  apply Nat.leb_gt in E. cbn [fst players].
  pose proof (set_size_le u (mkPlayer
    (if JsMap.size (players s) =? 0 then question else answer) JNull)
    (players s)). lia.
Qed.

Lemma connects_size_le (reqs : list (bool * string)) :
  forall s, JsMap.size (players s) <= 2 ->
            JsMap.size (players (fst (run s (connects reqs)))) <= 2.
Proof.
  induction reqs as [|[up u] reqs IH]; intros s H.
  - exact H.
  - unfold connects. simpl map. rewrite run_cons. simpl fst.
    apply IH. apply fetch_size_le. exact H.
Qed.

Lemma shape_size_le (b : bool) (used : list string) (s : GameSession) :
  shape b used s -> JsMap.size (players s) <= 2.
Proof. intros H; destruct H; simpl; lia. Qed.

(** C6: the participant set never holds more than two participants, along
    every sequence of admissions and along every sequence of events with
    fresh identifiers; an admission attempted while two participants are
    present answers "Game is full" (403), sends nothing and leaves the whole
    session, in particular the participant set, the game state and every
    stored submission, as it was. *)
Theorem C6_session_full :
  (forall reqs, JsMap.size (players (final (connects reqs))) <= 2) /\
  (forall evs, fresh_uuids evs = true ->
               JsMap.size (players (final evs)) <= 2) /\
  (forall s u, 2 <= JsMap.size (players s) ->
               fetch s true u = (s, GameIsFull, []) /\
               deliver s (Fetch true u) = (s, [])).
Proof.
  split; [|split].
  - intros reqs. apply connects_size_le. simpl. lia.
  - intros evs Hf. eapply shape_size_le. apply shape_final. exact Hf.
  - intros s u H. apply Nat.leb_le in H.
    unfold deliver, fetch. cbn [negb]. rewrite H. split; reflexivity.
Qed.

Lemma C6_session_full_witness :
  JsMap.size (players (final tr_full)) <= 2 /\
  fetch (final tr_pair) true "C" = (final tr_pair, GameIsFull, []).
Proof.
  split.
  - apply (proj1 (proj2 C6_session_full) tr_full). reflexivity.
  - apply (proj2 (proj2 C6_session_full) (final tr_pair) "C"). simpl. lia.
Defined.

(** C7 as stated fails: a submit while the game state is "waiting" sends
    nothing at all to the originating socket, so no error is surfaced. *)
Lemma C7_counterexample :
  gameState (final tr_one) = waiting /\
  socket (final tr_one) 0 = Some (sock 0 "A" question JNull) /\
  ~ (exists m, In (0, m)
       (snd (deliver (final tr_one) (Message 0 (submit (JStr "hi")))))).
Proof.
  split; [reflexivity|]. split; [reflexivity|].
  intros [m H]. simpl in H. exact H.
Qed.

Lemma submit_ignored (s : GameSession) (ws : WebSocket) (content : JsVal) :
  gameState s <> playing ->
  webSocketMessage s ws (submit content) = (s, []).
Proof.
  intros H. apply GameState_eqb_neq in H.
  simpl. unfold handleSubmit. rewrite H. reflexivity.
Qed.

(** C7, amended: a submit handled while the game state is not "playing"
    (that is "waiting" or "revealed") is ignored silently: nothing is sent to
    anyone and the session, with its participant set, submissions, sockets
    and game state, is unchanged. *)
Theorem C7_submit_outside_playing (s : GameSession) (ws : WebSocket)
    (content : JsVal) :
  gameState s <> playing ->
  webSocketMessage s ws (submit content) = (s, []) /\
  (socket s (handle ws) = Some ws ->
   deliver s (Message (handle ws) (submit content)) = (s, [])).
Proof.
  intros H. pose proof (submit_ignored s ws content H) as E.
  split; [exact E|]. intros Hs. simpl. rewrite Hs. exact E.
Qed.

Lemma C7_submit_outside_playing_witness :
  gameState (final tr_one) <> playing /\
  webSocketMessage (final tr_one) (sock 0 "A" question JNull)
                   (submit (JStr "hi")) = (final tr_one, []).
Proof.
  assert (gameState (final tr_one) <> playing) as H by (simpl; discriminate).
  split; [exact H|].
  exact (proj1 (C7_submit_outside_playing (final tr_one)
                  (sock 0 "A" question JNull) (JStr "hi") H)).
Defined.

(** ** Submissions *)

Lemma set_values_In {V} (k : string) (v : V) (m : JsMap.t V) :
  In v (JsMap.values (JsMap.set k v m)).
Proof.
  unfold JsMap.values. induction m as [|[k' v'] m IH]; simpl.
  - left; reflexivity.
  - destruct (String.eqb k' k); simpl; auto.
Qed.

Lemma forallb_false_In {A} (f : A -> bool) (x : A) (l : list A) :
  In x l -> f x = false -> forallb f l = false.
Proof.
  intros Hin Hf. destruct (forallb f l) eqn:E; [|reflexivity].
  rewrite forallb_forall in E. rewrite (E x Hin) in Hf. discriminate.
Qed.

(** C8 as stated fails: an empty submission in the "playing" state is
    stored as the participant's submission and acknowledged. *)
Lemma C8_counterexample :
  gameState (final tr_pair) = playing /\
  JsMap.get "A" (players (final tr_pair)) = Some (mkPlayer question JNull) /\
  JsMap.get "A" (players (fst (deliver (final tr_pair)
                                       (Message 0 (submit (JStr ""))))))
    = Some (mkPlayer question (JStr "")) /\
  snd (deliver (final tr_pair) (Message 0 (submit (JStr ""))))
    = [(0, msg_submitted)].
Proof. repeat split. Qed.

(** C8, amended: the server does not validate content.  A submit with empty
    content handled in the "playing" state is stored as the participant's
    submission and acknowledged with "submitted", and no error is sent; the
    empty string being falsy, it does not complete a reveal and the game
    state stays "playing".  Whitespace-only content is truthy and is treated
    like any other text: it can complete a reveal. *)
Theorem C8_empty_content (s : GameSession) (ws : WebSocket)
    (a : Attachment) :
  gameState s = playing ->
  attachment ws = Some a ->
  webSocketMessage s ws (submit (JStr "")) =
    (recorded s (handle ws) a (JStr "") playing,
     [(handle ws, msg_submitted)]) /\
  JsMap.get (playerId a)
            (players (fst (webSocketMessage s ws (submit (JStr "")))))
    = Some (mkPlayer (att_role a) (JStr "")) /\
  truthy (JStr " ") = true /\
  snd (deliver (fst (deliver (final tr_pair) (Message 0 (submit (JStr " ")))))
               (Message 1 (submit (JStr "x"))))
    = [(1, msg_submitted);
       (0, msg_reveal (JStr " ") (JStr "x"));
       (1, msg_reveal (JStr " ") (JStr "x"))].
Proof.
  intros Hgs Hatt.
  assert (webSocketMessage s ws (submit (JStr "")) =
          (recorded s (handle ws) a (JStr "") playing,
           [(handle ws, msg_submitted)])) as E.
  { simpl. unfold handleSubmit. rewrite Hatt, Hgs. cbn [GameState_eqb negb].
    rewrite (forallb_false_In _ (mkPlayer (att_role a) (JStr ""))).
    - rewrite andb_false_r. reflexivity.
    - apply set_values_In.
    - reflexivity. }
  split; [exact E|]. split; [|split; reflexivity].
  rewrite E. simpl. apply get_set.
Qed.

Lemma C8_empty_content_witness :
  gameState (final tr_pair) = playing /\
  attachment (sock 0 "A" question JNull)
    = Some (mkAttachment "A" question JNull) /\
  webSocketMessage (final tr_pair) (sock 0 "A" question JNull)
                   (submit (JStr "")) =
    (recorded (final tr_pair) 0 (mkAttachment "A" question JNull)
              (JStr "") playing,
     [(0, msg_submitted)]).
Proof.
  split; [reflexivity|]. split; [reflexivity|].
  exact (proj1 (C8_empty_content (final tr_pair) (sock 0 "A" question JNull)
                  (mkAttachment "A" question JNull) eq_refl eq_refl)).
Defined.

(** C4 as stated fails: a second submit from the same participant, while
    the game state is still "playing", replaces the stored submission and is
    acknowledged again. *)
Lemma C4_counterexample :
  JsMap.get "A" (players (final (tr_pair ++ [Message 0 (submit (JStr "hi"))])))
    = Some (mkPlayer question (JStr "hi")) /\
  JsMap.get "A" (players (final tr_resubmit))
    = Some (mkPlayer question (JStr "bye")) /\
  last (sent tr_resubmit) [] = [(0, msg_submitted)].
Proof. repeat split. Qed.

(** ** Terminations *)

(** C10: when a socket of a session terminates with an error, its
    participant is removed from the map, the game state is left as it was
    and nothing is sent, to the remaining participant or anyone else; so a
    session stays "playing" with a single participant, where a clean close
    of the same socket sets "waiting" and broadcasts the new count. *)
Theorem C10_error_termination :
  (forall evs h ws,
     fresh_uuids evs = true ->
     socket (final evs) h = Some ws ->
     exists a,
       attachment ws = Some a /\
       In (playerId a) (JsMap.keys (players (final evs))) /\
       ~ In (playerId a)
            (JsMap.keys (players (fst (deliver (final evs) (Error h))))) /\
       S (JsMap.size (players (fst (deliver (final evs) (Error h)))))
         = JsMap.size (players (final evs)) /\
       gameState (fst (deliver (final evs) (Error h)))
         = gameState (final evs) /\
       snd (deliver (final evs) (Error h)) = []) /\
  (fresh_uuids tr_error = true /\
   gameState (final tr_error) = playing /\
   JsMap.size (players (final tr_error)) = 1) /\
  (gameState (fst (deliver (final tr_pair) (Close 1))) = waiting /\
   snd (deliver (final tr_pair) (Close 1))
     = [(0, msg_state 1 waiting); (1, msg_state 1 waiting)]).
Proof.
  split; [|split; repeat split].
  intros evs h ws Hf Hs.
  pose proof (shape_final evs Hf) as Hsh.
  unfold deliver. rewrite Hs. unfold socket in Hs.
  shape_cases Hsh; simpl in Hs.
  - discriminate.
  - destruct (h0 =? h) eqn:E; [|discriminate].
    injection Hs as <-. this_socket E.
    eexists; split; [reflexivity|].
    unfold webSocketError, JsMap.delete. run_tests.
    repeat split; auto.
  - learn_tests. destruct (h1 =? h) eqn:E1.
    + injection Hs as <-. this_socket E1.
      eexists; split; [reflexivity|].
      unfold webSocketError, JsMap.delete. run_tests.
      repeat split; auto. intros [F|[]]. congruence.
    + destruct (h2 =? h) eqn:E2; [|discriminate].
      injection Hs as <-. this_socket E2.
      eexists; split; [reflexivity|].
      unfold webSocketError, JsMap.delete. run_tests.
      repeat split; auto. intros [F|[]]. congruence.
Qed.

Lemma C10_error_termination_witness :
  fresh_uuids tr_pair = true /\
  socket (final tr_pair) 1 = Some (sock 1 "B" answer JNull) /\
  exists a,
    attachment (sock 1 "B" answer JNull) = Some a /\
    In (playerId a) (JsMap.keys (players (final tr_pair))) /\
    ~ In (playerId a)
         (JsMap.keys (players (fst (deliver (final tr_pair) (Error 1))))) /\
    S (JsMap.size (players (fst (deliver (final tr_pair) (Error 1)))))
      = JsMap.size (players (final tr_pair)) /\
    gameState (fst (deliver (final tr_pair) (Error 1)))
      = gameState (final tr_pair) /\
    snd (deliver (final tr_pair) (Error 1)) = [].
Proof.
  split; [reflexivity|]. split; [reflexivity|].
  exact (proj1 C10_error_termination tr_pair 1 (sock 1 "B" answer JNull)
               eq_refl eq_refl).
Defined.

(** C5 fails on the code: roles are assigned from the map's size alone, so
    after the holder of "question" has left, the participant who joins the
    remaining "answer" holder is given "answer" too.  Two participants then
    hold "answer" and none holds "question"; when both have submitted,
    [handleSubmit] sets "revealed" and throws on [question.submission], and
    no reveal is ever broadcast. *)
Theorem C5_two_answer_holders :
  fresh_uuids tr_rejoin = true /\
  players (final tr_rejoin)
    = [entry "B" answer JNull; entry "C" answer JNull] /\
  holders answer (final tr_rejoin) = 2 /\
  holders question (final tr_rejoin) = 0 /\
  gameState (final tr_rejoin_submit) = revealed /\
  reveal_count (sent tr_rejoin_submit) = 0.
Proof. repeat split. Qed.

(** What does hold: the role "question" has at most one holder. *)
Lemma question_holder_unique (evs : list Event) :
  fresh_uuids evs = true -> holders question (final evs) <= 1.
Proof.
  intros Hf. pose proof (shape_final evs Hf) as Hsh.
  unfold holders. shape_cases Hsh; simpl; try lia.
  - destruct r; simpl; lia.
  - destruct r1; simpl; lia.
Qed.

(** ** Roles *)

Ltac split_ids :=
  repeat match goal with
  | |- context [String.eqb ?a ?b] =>
      let E := fresh "E" in destruct (String.eqb a b) eqn:E; simpl
  end.

Lemma NoDup_app_disjoint {A} (l1 l2 : list A) :
  NoDup (l1 ++ l2) -> forall x, In x l1 -> In x l2 -> False.
Proof.
  induction l1 as [|y l1 IH]; simpl; intros Hnd x H1 H2; [contradiction|].
  inversion Hnd as [|? ? Hy Hnd']; subst.
  destruct H1 as [->|H1].
  - apply Hy. apply in_or_app. right. exact H2.
  - exact (IH Hnd' x H1 H2).
Qed.

Lemma uuids_app (a b : list Event) : uuids (a ++ b) = uuids a ++ uuids b.
Proof.
  induction a as [|e a IH]; simpl; [reflexivity|].
  destruct e; simpl; rewrite ?IH; reflexivity.
Qed.

Lemma final_app (a b : list Event) :
  final (a ++ b) = fst (run (final a) b).
Proof. unfold final. rewrite run_app. reflexivity. Qed.

Ltac ids_done :=
  try (intros F; discriminate F);
  try (repeat match goal with
              | E : String.eqb _ _ = true |- _ => apply String.eqb_eq in E
              end; congruence).

Lemma role_step (b : bool) (used : list string) (s : GameSession)
    (e : Event) (u : string) (ro : Role) :
  shape b used s ->
  (forall up u0, e = Fetch up u0 -> ~ In u0 used) ->
  In u used ->
  role_of u (fst (deliver s e)) = Some ro ->
  role_of u s = Some ro.
Proof.
  intros Hs Hfresh Hu. unfold role_of, JsMap.get.
  destruct e as [up u0 | h data | h | h].
  - assert (~ In u0 used) as Hu0 by (eapply Hfresh; reflexivity).
    assert (u0 <> u) as Hne by (intro; subst; contradiction).
    shape_cases Hs; destruct up; simpl; auto.
    + learn_tests. run_tests. auto.
    + assert (p <> u0) as Hpu by (intro; subst; contradiction).
      unfold fetch. learn_tests. run_tests. split_ids; auto; ids_done.
  - unfold deliver, socket. shape_cases Hs; simpl; auto.
    + destruct (h0 =? h) eqn:E; simpl; auto.
      destruct data as [c|]; simpl; auto.
      unfold handleSubmit; destruct gs; simpl; auto.
      run_tests. split_ids; auto; ids_done.
    + learn_tests.
      destruct (h1 =? h) eqn:E1; simpl.
      * destruct data as [c|]; simpl; auto.
        unfold handleSubmit; destruct Hgs; subst gs; simpl; auto.
        run_tests.
        destruct (truthy c), (truthy v2), r1; simpl; split_ids; auto; ids_done.
      * destruct (h2 =? h) eqn:E2; simpl; auto.
        destruct data as [c|]; simpl; auto.
        unfold handleSubmit; destruct Hgs; subst gs; simpl; auto.
        run_tests.
        destruct (truthy c), (truthy v1), r1; simpl; split_ids; auto; ids_done.
  - unfold deliver, socket. shape_cases Hs; simpl; auto.
    + destruct (h0 =? h) eqn:E; simpl; auto.
      unfold webSocketClose, JsMap.delete. run_tests. intros F; discriminate F.
    + learn_tests.
      destruct (h1 =? h) eqn:E1; simpl.
      * unfold webSocketClose, JsMap.delete. run_tests.
        split_ids; auto; ids_done.
      * destruct (h2 =? h) eqn:E2; simpl; auto.
        unfold webSocketClose, JsMap.delete. run_tests.
        split_ids; auto; ids_done.
  - unfold deliver, socket. shape_cases Hs; simpl; auto.
    + destruct (h0 =? h) eqn:E; simpl; auto.
      unfold webSocketError, JsMap.delete. run_tests. intros F; discriminate F.
    + learn_tests.
      destruct (h1 =? h) eqn:E1; simpl.
      * unfold webSocketError, JsMap.delete. run_tests.
        split_ids; auto; ids_done.
      * destruct (h2 =? h) eqn:E2; simpl; auto.
        unfold webSocketError, JsMap.delete. run_tests.
        split_ids; auto; ids_done.
Qed.

Lemma role_run (b : bool) (u : string) (ro : Role) (evs : list Event) :
  forall (used : list string) (s : GameSession),
    shape b used s ->
    NoDup (uuids evs) ->
    (forall x, In x (uuids evs) -> ~ In x used) ->
    (b = true -> error_free evs = true) ->
    In u used ->
    role_of u (fst (run s evs)) = Some ro ->
    role_of u s = Some ro.
Proof.
  induction evs as [|e evs IH]; intros used s Hs Hnd Hfresh Hb Hu Hr.
  - exact Hr.
  - rewrite run_cons in Hr. simpl fst in Hr.
    assert (forall up u0, e = Fetch up u0 -> ~ In u0 used) as Hfe.
    { intros up u0 ->. apply Hfresh. simpl. auto. }
    assert (uuids (e :: evs) = uuids [e] ++ uuids evs) as Hsplit
        by (destruct e; reflexivity).
    rewrite Hsplit in *.
    apply (role_step b used s e u ro Hs Hfe Hu).
    apply (IH (uuids [e] ++ used)); auto.
    + apply shape_step; auto.
      intros Hbt. specialize (Hb Hbt). simpl in Hb.
      apply andb_true_iff in Hb. destruct Hb as [Hb _].
      apply negb_true_iff in Hb. exact Hb.
    + apply NoDup_app_remove_l in Hnd. exact Hnd.
    + intros x Hx Hin. apply in_app_or in Hin. destruct Hin as [Hin|Hin].
      * destruct e; simpl in *; try contradiction.
        destruct Hin as [->|[]]. inversion Hnd; contradiction.
      * apply (Hfresh x); [apply in_or_app; auto | exact Hin].
    + intros Hbt. specialize (Hb Hbt). simpl in Hb.
      apply andb_true_iff in Hb. tauto.
    + apply in_or_app. auto.
Qed.

Lemma quiet_run (evs : list Event) :
  forall s, players s = [] -> webSockets s = [] ->
            forallb (fun e => negb (joining e)) evs = true ->
            fst (run s evs) = s.
Proof.
  induction evs as [|e evs IH]; intros s Hp Hw Hf; [reflexivity|].
  simpl in Hf. apply andb_true_iff in Hf. destruct Hf as [He Hf].
  rewrite run_cons. simpl fst.
  assert (fst (deliver s e) = s) as Hd.
  { destruct e as [[|] u | h d | h | h]; simpl in *;
      try discriminate; try reflexivity;
      unfold socket; rewrite Hw; reflexivity. }
  rewrite Hd. apply IH; assumption.
Qed.

Lemma quiet_final (evs : list Event) :
  forallb (fun e => negb (joining e)) evs = true ->
  final evs = constructor.
Proof. intros H. apply quiet_run; auto. Qed.

(** C9 as stated fails: when the first participant has left, the second
    participant admitted is alone in the session and receives "question". *)
Lemma C9_counterexample :
  nth 0 (sent tr_second_alone) []
    = [(0, msg_joined "A" question 1 waiting); (0, msg_state 1 waiting)] /\
  nth 2 (sent tr_second_alone) []
    = [(1, msg_joined "B" question 1 waiting); (1, msg_state 1 waiting)] /\
  role_of "B" (final tr_second_alone) = Some question.
Proof. repeat split. Qed.

(** C9, amended: the role is given by the size of the participant map at the
    moment of admission and never changes afterwards.  A participant
    admitted into an empty session, in particular the first participant a
    session ever admits, receives "question"; a participant admitted while
    the only participant present holds "question" receives "answer"; the
    role is announced in the participant's "joined" message, and as long as
    the participant stays in the map its role is the one it was given. *)
Theorem C9_role_assignment :
  (forall s u,
     players s = [] ->
     fst (fetch s true u)
       = ({| players := [entry u question JNull];
             gameState := gameState s;
             webSockets :=
               webSockets s ++ [sock (nextHandle s) u question JNull];
             nextHandle := S (nextHandle s) |},
          SwitchingProtocols (nextHandle s)) /\
     In (nextHandle s, msg_joined u question 1 (gameState s))
        (snd (fetch s true u))) /\
  (forall evs u,
     forallb (fun e => negb (joining e)) evs = true ->
     role_of u (final (evs ++ [Fetch true u])) = Some question) /\
  (forall s p v u,
     players s = [entry p question v] ->
     u <> p ->
     players (fst (fst (fetch s true u)))
       = [entry p question v; entry u answer JNull] /\
     In (nextHandle s, msg_joined u answer 2 playing)
        (snd (fetch s true u))) /\
  (forall evs evs' u ro,
     fresh_uuids (evs ++ evs') = true ->
     In u (uuids evs) ->
     role_of u (final (evs ++ evs')) = Some ro ->
     role_of u (final evs) = Some ro).
Proof.
  split; [|split; [|split]].
  - intros s u Hp. unfold fetch. rewrite Hp. simpl. auto.
  - intros evs u H. rewrite final_app, (quiet_final evs H).
    unfold role_of, JsMap.get. simpl. rewrite String.eqb_refl. reflexivity.
  - intros s p v u Hp Hne. unfold fetch. rewrite Hp. learn_tests.
    run_tests. auto.
  - intros evs evs' u ro Hf Hu Hr.
    unfold fresh_uuids in Hf. apply distinct_NoDup in Hf.
    rewrite uuids_app in Hf.
    rewrite final_app in Hr.
    apply (role_run false u ro evs' (uuids evs) (final evs)); auto.
    + apply shape_final. apply distinct_NoDup.
      apply NoDup_app_remove_r in Hf. exact Hf.
    + apply NoDup_app_remove_l in Hf. exact Hf.
    + intros x Hx Hin. exact (NoDup_app_disjoint _ _ Hf x Hin Hx).
    + discriminate.
Qed.

Lemma C9_role_assignment_witness :
  (players constructor = [] /\
   In (0, msg_joined "A" question 1 waiting)
      (snd (fetch constructor true "A"))) /\
  (forallb (fun e => negb (joining e)) [Fetch false "Z"] = true /\
   role_of "A" (final ([Fetch false "Z"] ++ [Fetch true "A"]))
     = Some question) /\
  (players (final tr_one) = [entry "A" question JNull] /\
   "B" <> "A" /\
   In (1, msg_joined "B" answer 2 playing)
      (snd (fetch (final tr_one) true "B"))) /\
  (fresh_uuids (tr_pair ++ [Message 1 (submit (JStr "x"))]) = true /\
   In "B" (uuids tr_pair) /\
   role_of "B" (final (tr_pair ++ [Message 1 (submit (JStr "x"))]))
     = Some answer /\
   role_of "B" (final tr_pair) = Some answer).
Proof.
  assert ("B" <> "A") as Hne by discriminate.
  assert (In "B" (uuids tr_pair)) as Hin by (simpl; auto).
  split; [|split; [|split]].
  - split; [reflexivity|].
    exact (proj2 (proj1 C9_role_assignment constructor "A" eq_refl)).
  - split; [reflexivity|].
    exact (proj1 (proj2 C9_role_assignment) [Fetch false "Z"] "A" eq_refl).
  - split; [reflexivity|]. split; [exact Hne|].
    exact (proj2 (proj1 (proj2 (proj2 C9_role_assignment))
                        (final tr_one) "A" JNull "B" eq_refl Hne)).
  - split; [reflexivity|]. split; [exact Hin|]. split; [reflexivity|].
    exact (proj2 (proj2 (proj2 C9_role_assignment))
                 tr_pair [Message 1 (submit (JStr "x"))] "B" answer
                 eq_refl Hin eq_refl).
Defined.

(** ** The game state *)

(** C3 as stated fails: with one participant the game state is "waiting",
    not a separate "ready". *)
Lemma C3_counterexample :
  JsMap.size (players (final tr_one)) = 1 /\
  gameState (final tr_one) = waiting /\
  gameState (final tr_one) <> ready.
Proof. repeat split. discriminate. Qed.

Lemma broadcast_no_reveal (s : GameSession) (m : ServerMsg) :
  is_reveal m = false -> reveals (broadcast s m) = false.
Proof.
  intros H. unfold reveals, broadcast.
  induction (webSockets s) as [|ws l IH]; simpl; [reflexivity|].
  rewrite H. exact IH.
Qed.

(** ** The reveal *)

Lemma handleSubmit_playing (s : GameSession) (h : nat) (a : Attachment)
    (c : JsVal) :
  gameState s = playing ->
  handleSubmit s h (Some a) c =
    let m := JsMap.set (playerId a) (mkPlayer (att_role a) c) (players s) in
    if all_submitted m then
      match find is_question (JsMap.values m),
            find is_answer (JsMap.values m) with
      | Some q, Some an =>
          (recorded s h a c revealed,
           (h, msg_submitted)
             :: broadcast (recorded s h a c revealed)
                          (msg_reveal (submission q) (submission an)))
      | _, _ => (recorded s h a c revealed, [(h, msg_submitted)])
      end
    else (recorded s h a c playing, [(h, msg_submitted)]).
Proof.
  intros Hgs. unfold handleSubmit, all_submitted, recorded.
  rewrite Hgs. reflexivity.
Qed.

Lemma handleSubmit_players (s : GameSession) (h : nat) (a : Attachment)
    (c : JsVal) :
  gameState s = playing ->
  players (fst (handleSubmit s h (Some a) c))
    = JsMap.set (playerId a) (mkPlayer (att_role a) c) (players s).
Proof.
  intros Hgs. rewrite (handleSubmit_playing s h a c Hgs). cbv zeta.
  destruct (all_submitted _); [|reflexivity].
  destruct (find is_question _); [destruct (find is_answer _)|]; reflexivity.
Qed.

Lemma broadcast_all_reveal (s : GameSession) (m : ServerMsg) :
  is_reveal m = true ->
  filter (fun x : Send => is_reveal (snd x)) (broadcast s m) = broadcast s m.
Proof.
  intros H. unfold broadcast.
  induction (webSockets s) as [|ws l IH]; simpl; [reflexivity|].
  rewrite H, IH. reflexivity.
Qed.

Lemma In_broadcast (s : GameSession) (m m' : ServerMsg) (h : nat) :
  In (h, m') (broadcast s m) -> m' = m.
Proof.
  unfold broadcast. intros H. apply in_map_iff in H.
  destruct H as [ws [E _]]. congruence.
Qed.

(** Two players found by role among exactly two are the two players. *)
Lemma pair_by_role (l : list Player) (pq pa : Player) :
  List.length l = 2 ->
  find is_question l = Some pq ->
  find is_answer l = Some pa ->
  In pq l /\ role pq = question /\ In pa l /\ role pa = answer /\
  forall p, In p l ->
            (role p = question -> p = pq) /\ (role p = answer -> p = pa).
Proof.
  intros Hlen Hq Ha.
  destruct l as [|x [|y [|z l]]]; try discriminate.
  unfold is_question, is_answer in *. simpl in *.
  destruct (role x) eqn:Ex, (role y) eqn:Ey; simpl in *;
    try discriminate;
    injection Hq as <-; injection Ha as <-;
    (repeat split; auto;
     match goal with
     | H : _ \/ _ \/ False |- _ => destruct H as [<-|[<-|[]]]; congruence
     end).
Qed.

Lemma reveal_only_on_submit (s : GameSession) (e : Event) :
  (forall h c, e <> Message h (submit c)) ->
  reveals (snd (deliver s e)) = false.
Proof.
  intros He. destruct e as [up u | h d | h | h]; unfold deliver.
  - unfold fetch. destruct up; cbn [negb]; [|reflexivity].
    destruct (2 <=? JsMap.size (players s)); [reflexivity|].
    cbv beta iota zeta delta [snd]. unfold reveals.
    cbn [existsb snd is_reveal orb].
    apply broadcast_no_reveal. reflexivity.
  - destruct (socket s h); [|reflexivity].
    destruct d as [c|]; [|reflexivity]. exfalso. exact (He h c eq_refl).
  - destruct (socket s h) as [ws|]; [|reflexivity].
    unfold webSocketClose. destruct (attachment ws); [|reflexivity].
    cbn [snd]. apply broadcast_no_reveal. reflexivity.
  - destruct (socket s h); reflexivity.
Qed.

Lemma reveals_In (out : list Send) (h : nat) (q a : JsVal) :
  In (h, msg_reveal q a) out -> reveals out = true.
Proof.
  intros H. unfold reveals. apply existsb_exists.
  exists (h, msg_reveal q a). split; [exact H|reflexivity].
Qed.

(** What a handler run that broadcasts a reveal looks like. *)
Lemma reveal_inversion (s : GameSession) (e : Event) :
  reveals (snd (deliver s e)) = true ->
  exists h ws a c pq pa,
    e = Message h (submit c) /\
    socket s h = Some ws /\ attachment ws = Some a /\
    gameState s = playing /\
    all_submitted (players (recorded s h a c revealed)) = true /\
    find is_question (JsMap.values (players (recorded s h a c revealed)))
      = Some pq /\
    find is_answer (JsMap.values (players (recorded s h a c revealed)))
      = Some pa /\
    deliver s e =
      (recorded s h a c revealed,
       (h, msg_submitted)
         :: broadcast (recorded s h a c revealed)
                      (msg_reveal (submission pq) (submission pa))).
Proof.
  intros H.
  destruct e as [up u | h d | h | h];
    try (rewrite reveal_only_on_submit in H; [discriminate|];
         intros; discriminate).
  destruct d as [c|];
    [|rewrite reveal_only_on_submit in H; [discriminate|];
      intros; discriminate].
  simpl in *. destruct (socket s h) as [ws|] eqn:Hs; [|discriminate].
  simpl in *. assert (handle ws = h) as Hh.
  { unfold socket in Hs. apply find_some in Hs. destruct Hs as [_ Hs].
    apply Nat.eqb_eq in Hs. exact Hs. }
  rewrite Hh in *.
  destruct (GameState_eqb (gameState s) playing) eqn:Hgs.
  2:{ unfold handleSubmit in H. rewrite Hgs in H. discriminate. }
  apply GameState_eqb_eq in Hgs.
  destruct (attachment ws) as [a|] eqn:Ha.
  2:{ unfold handleSubmit in H.
      destruct (negb _) in H; discriminate. }
  rewrite (handleSubmit_playing s h a c Hgs) in *. cbv zeta in *.
  change (JsMap.set (playerId a) (mkPlayer (att_role a) c) (players s))
    with (players (recorded s h a c revealed)) in *.
  destruct (all_submitted _) eqn:Hall; [|discriminate].
  destruct (find is_question _) as [pq|] eqn:Hq; [|discriminate].
  destruct (find is_answer _) as [pa|] eqn:Hpa; [|discriminate].
  exists h, ws, a, c, pq, pa. repeat split; auto.
Qed.

(** C1: whenever a handler sends a reveal, its first field is the
    submission of the participant whose role is "question" and its second
    field the submission of the participant whose role is "answer", both
    taken from the participant map as the handler leaves it, and every
    participant holding one of the roles has that submission; so with two
    participants the reveal is the same whichever of them submitted
    first. *)
Theorem C1_reveal_paired_by_role :
  (forall s e h q a,
     In (h, msg_reveal q a) (snd (deliver s e)) ->
     (exists pq pa,
        In pq (JsMap.values (players (fst (deliver s e)))) /\
        role pq = question /\ submission pq = q /\
        In pa (JsMap.values (players (fst (deliver s e)))) /\
        role pa = answer /\ submission pa = a) /\
     (forall p, In p (JsMap.values (players (fst (deliver s e)))) ->
                (role p = question -> submission p = q) /\
                (role p = answer -> submission p = a))) /\
  (forall u1 u2 x y,
     u1 <> u2 -> truthy x = true -> truthy y = true ->
     last (sent [Fetch true u1; Fetch true u2;
                 Message 0 (submit x); Message 1 (submit y)]) []
       = [(1, msg_submitted); (0, msg_reveal x y); (1, msg_reveal x y)] /\
     last (sent [Fetch true u1; Fetch true u2;
                 Message 1 (submit y); Message 0 (submit x)]) []
       = [(0, msg_submitted); (0, msg_reveal x y); (1, msg_reveal x y)]).
Proof.
  split.
  - intros s e h q a Hin.
    destruct (reveal_inversion s e (reveals_In _ h q a Hin))
      as (h0 & ws & att & c & pq & pa & He & Hs & Ha & Hgs & Hall & Hq & Hpa
          & Hd).
    rewrite Hd in *. cbn [fst snd] in *.
    destruct Hin as [Hin|Hin]; [discriminate|].
    apply In_broadcast in Hin. injection Hin as -> ->.
    unfold all_submitted in Hall. apply andb_true_iff in Hall.
    destruct Hall as [Hlen _]. apply Nat.eqb_eq in Hlen.
    destruct (pair_by_role _ pq pa Hlen Hq Hpa)
      as (Hinq & Hrq & Hina & Hra & Hall).
    split.
    + exists pq, pa. repeat split; assumption.
    + intros p Hp. destruct (Hall p Hp) as [H1 H2].
      split; intros Hr; [rewrite (H1 Hr) | rewrite (H2 Hr)]; reflexivity.
  - intros u1 u2 x y Hne Hx Hy. learn_tests.
    unfold sent, run, deliver, socket, fetch, webSocketMessage, handleSubmit.
    run_tests. rewrite ?Hx, ?Hy. run_tests. rewrite ?Hx, ?Hy. split; reflexivity.
Qed.

Lemma C1_reveal_paired_by_role_witness :
  (In (1, msg_reveal (JStr "q") (JStr "a"))
      (snd (deliver (final tr_first_in) (Message 0 (submit (JStr "q"))))) /\
   forall p,
     In p (JsMap.values
             (players (fst (deliver (final tr_first_in)
                                    (Message 0 (submit (JStr "q"))))))) ->
     (role p = question -> submission p = JStr "q") /\
     (role p = answer -> submission p = JStr "a")) /\
  ("A" <> "B" /\ truthy (JStr "q") = true /\ truthy (JStr "a") = true /\
   last (sent [Fetch true "A"; Fetch true "B";
               Message 1 (submit (JStr "a")); Message 0 (submit (JStr "q"))])
        []
     = [(0, msg_submitted);
        (0, msg_reveal (JStr "q") (JStr "a"));
        (1, msg_reveal (JStr "q") (JStr "a"))]).
Proof.
  assert (In (1, msg_reveal (JStr "q") (JStr "a"))
             (snd (deliver (final tr_first_in)
                           (Message 0 (submit (JStr "q")))))) as Hin
      by (simpl; auto).
  assert ("A" <> "B") as Hne by discriminate.
  split.
  - split; [exact Hin|].
    exact (proj2 (proj1 C1_reveal_paired_by_role (final tr_first_in)
                        (Message 0 (submit (JStr "q"))) 1
                        (JStr "q") (JStr "a") Hin)).
  - split; [exact Hne|]. split; [reflexivity|]. split; [reflexivity|].
    exact (proj2 (proj2 C1_reveal_paired_by_role "A" "B"
                        (JStr "q") (JStr "a") Hne eq_refl eq_refl)).
Defined.

Lemma find_none_filter {A} (f : A -> bool) (l : list A) :
  find f l = None -> filter f l = [].
Proof.
  induction l as [|x l IH]; simpl; [reflexivity|].
  destruct (f x); [discriminate|exact IH].
Qed.

Lemma serializeAttachment_length (h : nat) (a : Attachment)
    (l : list WebSocket) :
  List.length (serializeAttachment h a l) = List.length l.
Proof. unfold serializeAttachment. apply length_map. Qed.

Lemma reveals_broadcast (s : GameSession) (m : ServerMsg) :
  webSockets s <> [] -> is_reveal m = true -> reveals (broadcast s m) = true.
Proof.
  intros Hne Hm. unfold reveals, broadcast.
  destruct (webSockets s) as [|ws l]; [contradiction|].
  simpl. rewrite Hm. reflexivity.
Qed.

(** C2 as stated fails.  With an empty string stored for one participant
    both participants are in the map with submissions that are not absent,
    and nothing is revealed; and after a reveal, when a participant leaves
    and another connects, the game state goes back to "playing" and the
    newcomer's submission triggers a second reveal in the same session. *)
Lemma C2_counterexample :
  (fresh_uuids tr_empty_side = true /\
   JsMap.values (players (final tr_empty_side))
     = [mkPlayer question (JStr ""); mkPlayer answer (JStr "x")] /\
   forallb (fun p => negb (absent (submission p)))
           (JsMap.values (players (final tr_empty_side))) = true /\
   reveal_count (sent tr_empty_side) = 0) /\
  (fresh_uuids tr_twice = true /\
   reveal_count (sent tr_twice) = 2 /\
   nth 3 (sent tr_twice) []
     = [(1, msg_submitted);
        (0, msg_reveal (JStr "q") (JStr "a"));
        (1, msg_reveal (JStr "q") (JStr "a"))] /\
   nth 6 (sent tr_twice) []
     = [(2, msg_submitted);
        (0, msg_reveal (JStr "q") (JStr "a2"));
        (2, msg_reveal (JStr "q") (JStr "a2"))]).
Proof. repeat split. Qed.

(** ** The worker's routes *)

Lemma strip_prefix_app (pre r : string) :
  Worker.strip_prefix pre (String.append pre r) = Some r.
Proof.
  induction pre as [|a pre IH]; simpl; [reflexivity|].
  rewrite Ascii.eqb_refl. exact IH.
Qed.

Lemma strip_prefix_inv (pre : string) :
  forall s r, Worker.strip_prefix pre s = Some r -> s = String.append pre r.
Proof.
  induction pre as [|a pre IH]; simpl; intros s r H.
  - congruence.
  - destruct s as [|b s]; [discriminate|].
    destruct (Ascii.eqb a b) eqn:E; [|discriminate].
    apply Ascii.eqb_eq in E. subst b. rewrite (IH s r H). reflexivity.
Qed.

Lemma match_rest_iff (pre path r : string) :
  Worker.match_rest pre path = Some r <->
  path = String.append pre r /\ r <> "" /\
  Worker.all_chars Worker.is_dot r = true.
Proof.
  unfold Worker.match_rest. split.
  - destruct (Worker.strip_prefix pre path) as [rest|] eqn:E; [|discriminate].
    destruct (negb (String.eqb rest "") && _) eqn:C; [|discriminate].
    intros H. injection H as <-.
    apply andb_true_iff in C. destruct C as [C1 C2].
    apply negb_true_iff in C1. apply String.eqb_neq in C1.
    split; [apply strip_prefix_inv; exact E|]. split; assumption.
  - intros [-> [Hne Hdot]]. rewrite strip_prefix_app.
    apply String.eqb_neq in Hne. rewrite Hne, Hdot. reflexivity.
Qed.

(** X1: the worker hands a request to a game session exactly when the path
    is "/ws/" followed by a non-empty name without line terminators, and
    the session it picks is the one named by everything after "/ws/",
    slashes included. *)
Theorem worker_route_session (path g : string) :
  Worker.route path = Worker.ToSession g <->
  path = String.append "/ws/" g /\ g <> "" /\
  Worker.all_chars Worker.is_dot g = true.
Proof.
  unfold Worker.route. split.
  - destruct (Worker.match_rest "/ws/" path) as [r|] eqn:E.
    + intros H. injection H as <-. apply match_rest_iff. exact E.
    + destruct (Worker.match_rest "/game/" path); discriminate.
  - intros H. apply match_rest_iff in H. rewrite H. reflexivity.
Qed.

Lemma worker_route_session_witness :
  Worker.route "/ws/quick-fox-7/extra" = Worker.ToSession "quick-fox-7/extra"
  /\ ("/ws/quick-fox-7/extra" = String.append "/ws/" "quick-fox-7/extra" /\
      "quick-fox-7/extra" <> "" /\
      Worker.all_chars Worker.is_dot "quick-fox-7/extra" = true).
Proof.
  split; [reflexivity|].
  exact (proj1 (worker_route_session "/ws/quick-fox-7/extra"
                                     "quick-fox-7/extra") eq_refl).
Defined.

(** X2: the worker serves the game page exactly for the paths "/game/"
    followed by a non-empty rest without line terminators, whatever that
    rest is; every path of neither form, "/ws/" and "/game/" with nothing
    after them included, goes to the static assets. *)
Theorem worker_route_page (path : string) :
  (Worker.route path = Worker.GamePage <->
   exists x, path = String.append "/game/" x /\ x <> "" /\
             Worker.all_chars Worker.is_dot x = true) /\
  (Worker.route path = Worker.StaticAssets <->
   (forall x, x <> "" -> Worker.all_chars Worker.is_dot x = true ->
              path <> String.append "/ws/" x /\
              path <> String.append "/game/" x)).
Proof.
  unfold Worker.route. split; split.
  - destruct (Worker.match_rest "/ws/" path) as [r|] eqn:E; [discriminate|].
    destruct (Worker.match_rest "/game/" path) as [x|] eqn:G; [|discriminate].
    intros _. exists x. apply match_rest_iff. exact G.
  - intros [x H]. destruct H as [-> H].
    assert (Worker.match_rest "/game/" (String.append "/game/" x) = Some x)
      as G by (apply match_rest_iff; split; [reflexivity|exact H]).
    rewrite G. reflexivity.
  - destruct (Worker.match_rest "/ws/" path) as [r|] eqn:E; [discriminate|].
    destruct (Worker.match_rest "/game/" path) as [y|] eqn:G; [discriminate|].
    intros _ x Hne Hdot. split; intros ->.
    + assert (Worker.match_rest "/ws/" (String.append "/ws/" x) = Some x)
        as F by (apply match_rest_iff; auto).
      congruence.
    + assert (Worker.match_rest "/game/" (String.append "/game/" x) = Some x)
        as F by (apply match_rest_iff; auto).
      congruence.
  - intros H.
    destruct (Worker.match_rest "/ws/" path) as [r|] eqn:E.
    + apply match_rest_iff in E. destruct E as [-> [Hne Hdot]].
      destruct (H r Hne Hdot) as [F _]. contradiction.
    + destruct (Worker.match_rest "/game/" path) as [y|] eqn:G;
        [|reflexivity].
      apply match_rest_iff in G. destruct G as [-> [Hne Hdot]].
      destruct (H y Hne Hdot) as [_ F]. contradiction.
Qed.

Lemma worker_route_page_witness :
  (exists x, "/game/silly-owl-12" = String.append "/game/" x /\ x <> "" /\
             Worker.all_chars Worker.is_dot x = true) /\
  Worker.route "/game/silly-owl-12" = Worker.GamePage /\
  Worker.route "/ws/" = Worker.StaticAssets /\
  (forall x, x <> "" -> Worker.all_chars Worker.is_dot x = true ->
             "/ws/" <> String.append "/ws/" x /\
             "/ws/" <> String.append "/game/" x).
Proof.
  assert (exists x, "/game/silly-owl-12" = String.append "/game/" x /\
                    x <> "" /\ Worker.all_chars Worker.is_dot x = true) as H.
  { exists "silly-owl-12". repeat split. discriminate. }
  split; [exact H|].
  split; [exact (proj2 (proj1 (worker_route_page "/game/silly-owl-12")) H)|].
  split; [reflexivity|].
  exact (proj1 (proj2 (worker_route_page "/ws/")) eq_refl).
Defined.

(** ** Game identifiers *)

Lemma all_chars_app (f : ascii -> bool) (a b : string) :
  Worker.all_chars f (String.append a b)
  = Worker.all_chars f a && Worker.all_chars f b.
Proof.
  induction a as [|c a IH]; simpl; [reflexivity|].
  rewrite IH. apply andb_assoc.
Qed.

Lemma all_chars_weaken (f g : ascii -> bool) (s : string) :
  (forall c, f c = true -> g c = true) ->
  Worker.all_chars f s = true -> Worker.all_chars g s = true.
Proof.
  intros Hfg. induction s as [|c s IH]; simpl; [reflexivity|].
  intros H. apply andb_true_iff in H. destruct H as [H1 H2].
  rewrite (Hfg c H1), (IH H2). reflexivity.
Qed.

Lemma element_all (f : ascii -> bool) (a : list string) (i : nat) :
  forallb (Worker.all_chars f) a = true ->
  Worker.all_chars f "undefined" = true ->
  Worker.all_chars f (Utils.element a i) = true.
Proof.
  intros Ha Hd. unfold Utils.element.
  destruct (nth_in_or_default i a "undefined") as [Hin | ->]; [|exact Hd].
  rewrite forallb_forall in Ha. apply Ha. exact Hin.
Qed.

Lemma digits_id_char (d : uint) :
  Worker.all_chars Utils.id_char (NilEmpty.string_of_uint d) = true.
Proof. induction d; simpl; auto. Qed.

Lemma id_char_is_dot (c : ascii) :
  Utils.id_char c = true -> Worker.is_dot c = true.
Proof.
  destruct c as [[] [] [] [] [] [] [] []]; vm_compute; congruence.
Qed.

Lemma generateGameId_chars (i j k : nat) :
  Worker.all_chars Utils.id_char (Utils.generateGameId i j k) = true.
Proof.
  unfold Utils.generateGameId. rewrite !all_chars_app.
  rewrite (element_all _ Utils.adjectives i), (element_all _ Utils.nouns j);
    try reflexivity.
  unfold Utils.number_to_string. rewrite digits_id_char. reflexivity.
Qed.

Lemma generateGameId_nonempty (i j k : nat) :
  Utils.generateGameId i j k <> "".
Proof.
  unfold Utils.generateGameId.
  destruct (Utils.element Utils.adjectives i); simpl; discriminate.
Qed.

(** X4: every identifier [generateGameId] returns is non-empty and made
    of lower-case letters, digits and hyphens only, so the worker serves
    the game page at "/game/<id>" and hands "/ws/<id>" to the session named
    exactly <id>. *)
Theorem generateGameId_routes (i j k : nat) :
  Utils.generateGameId i j k <> "" /\
  Worker.all_chars Utils.id_char (Utils.generateGameId i j k) = true /\
  Worker.route (String.append "/game/" (Utils.generateGameId i j k))
    = Worker.GamePage /\
  Worker.route (String.append "/ws/" (Utils.generateGameId i j k))
    = Worker.ToSession (Utils.generateGameId i j k).
Proof.
  pose proof (generateGameId_nonempty i j k) as Hne.
  pose proof (generateGameId_chars i j k) as Hch.
  assert (Worker.all_chars Worker.is_dot (Utils.generateGameId i j k) = true)
    as Hdot by (exact (all_chars_weaken _ _ _ id_char_is_dot Hch)).
  split; [exact Hne|]. split; [exact Hch|]. split.
  - unfold Worker.route.
    assert (Worker.match_rest "/game/"
              (String.append "/game/" (Utils.generateGameId i j k))
            = Some (Utils.generateGameId i j k)) as G
        by (apply match_rest_iff; auto).
    rewrite G. reflexivity.
  - unfold Worker.route.
    assert (Worker.match_rest "/ws/"
              (String.append "/ws/" (Utils.generateGameId i j k))
            = Some (Utils.generateGameId i j k)) as G
        by (apply match_rest_iff; auto).
    rewrite G. reflexivity.
Qed.

Lemma split_at_dash (w : string) :
  forall w' r r',
    Worker.all_chars no_dash w = true ->
    Worker.all_chars no_dash w' = true ->
    String.append w (String.append "-" r)
    = String.append w' (String.append "-" r') ->
    w = w' /\ r = r'.
Proof.
  induction w as [|c w IH]; intros w' r r' Hw Hw' H;
    destruct w' as [|c' w']; simpl in *.
  - injection H as ->. auto.
  - injection H as <- _. discriminate.
  - injection H as -> _. discriminate.
  - injection H as -> H.
    apply andb_true_iff in Hw, Hw'.
    destruct (IH w' r r' (proj2 Hw) (proj2 Hw') H) as [-> ->]. auto.
Qed.

Lemma element_no_dash (a : list string) (i : nat) :
  forallb (Worker.all_chars no_dash) a = true ->
  i < List.length a ->
  Worker.all_chars no_dash (Utils.element a i) = true.
Proof.
  intros Ha Hi. rewrite forallb_forall in Ha. apply Ha.
  unfold Utils.element. apply nth_In. exact Hi.
Qed.

Lemma element_injective (a : list string) (i i' : nat) :
  distinct a = true ->
  i < List.length a -> i' < List.length a ->
  Utils.element a i = Utils.element a i' -> i = i'.
Proof.
  intros Hd. apply distinct_NoDup in Hd.
  unfold Utils.element. intros Hi Hi' E.
  exact (proj1 (NoDup_nth a "undefined") Hd i i' Hi Hi' E).
Qed.

Lemma number_to_string_injective (k k' : nat) :
  Utils.number_to_string k = Utils.number_to_string k' -> k = k'.
Proof.
  unfold Utils.number_to_string. intros E.
  assert (Some (Nat.to_uint k) = Some (Nat.to_uint k')) as H.
  { rewrite <- !NilEmpty.usu. rewrite E. reflexivity. }
  injection H as H.
  rewrite <- (Unsigned.of_to k), <- (Unsigned.of_to k'), H. reflexivity.
Qed.

(** X5: different draws give different identifiers: no two adjectives and
    no two nouns are equal and none contains a hyphen, so for indices
    within the two arrays the identifier determines the adjective, the noun
    and the number. *)
Theorem generateGameId_injective (i j k i' j' k' : nat) :
  i < List.length Utils.adjectives -> i' < List.length Utils.adjectives ->
  j < List.length Utils.nouns -> j' < List.length Utils.nouns ->
  Utils.generateGameId i j k = Utils.generateGameId i' j' k' ->
  i = i' /\ j = j' /\ k = k'.
Proof.
  intros Hi Hi' Hj Hj' E. unfold Utils.generateGameId in E.
  apply split_at_dash in E; try (apply element_no_dash; [reflexivity|assumption]).
  destruct E as [Ea E].
  apply split_at_dash in E; try (apply element_no_dash; [reflexivity|assumption]).
  destruct E as [En Ek].
  split; [|split].
  - apply (element_injective Utils.adjectives); [reflexivity|assumption..].
  - apply (element_injective Utils.nouns); [reflexivity|assumption..].
  - apply number_to_string_injective. exact Ek.
Qed.

Lemma generateGameId_injective_witness :
  3 < List.length Utils.adjectives /\ 5 < List.length Utils.nouns /\
  Utils.generateGameId 3 5 42 = Utils.generateGameId 3 5 42 /\
  (3 = 3 /\ 5 = 5 /\ 42 = 42).
Proof.
  assert (3 < List.length Utils.adjectives) as H3 by (simpl; lia).
  assert (5 < List.length Utils.nouns) as H5 by (simpl; lia).
  split; [exact H3|]. split; [exact H5|]. split; [reflexivity|].
  exact (generateGameId_injective 3 5 42 3 5 42 H3 H3 H5 H5 eq_refl).
Defined.

(** ** What a handler sends *)

Lemma handleSubmit_out (s : GameSession) (h : nat) (att : option Attachment)
    (c : JsVal) (h' : nat) (m : ServerMsg) :
  In (h', m) (snd (handleSubmit s h att c)) ->
  (h' = h /\ m = msg_submitted) \/
  (is_reveal m = true /\ In h' (handles s) /\
   reveals (snd (handleSubmit s h att c)) = true).
Proof.
  unfold handleSubmit.
  destruct (negb (GameState_eqb (gameState s) playing)); [intros []|].
  destruct att as [a|]; [|intros []].
  destruct (_ && _).
  - destruct (find _ _) as [q|]; [destruct (find _ _) as [an|]|]; simpl.
    + intros [H|H]; [left; injection H as <- <-; auto|].
      right. unfold broadcast in H. simpl in H.
      apply in_map_iff in H. destruct H as [ws [E Hin]].
      injection E as <- <-. split; [reflexivity|]. split.
      * unfold handles, serializeAttachment in *.
        apply in_map_iff in Hin. destruct Hin as [ws0 [E0 Hin0]].
        apply in_map_iff. exists ws0. split; [|exact Hin0].
        destruct (handle ws0 =? h) eqn:Eh; subst ws; simpl; auto.
        apply Nat.eqb_eq in Eh. auto.
      * unfold reveals. simpl. apply existsb_exists.
        exists (handle ws, msg_reveal (submission q) (submission an)).
        split; [|reflexivity].
        apply in_map_iff. exists ws. auto.
    + intros [H|[]]. left; injection H as <- <-; auto.
    + intros [H|[]]. left; injection H as <- <-; auto.
  - simpl. intros [H|[]]. left; injection H as <- <-; auto.
Qed.

Lemma socket_handle (s : GameSession) (h : nat) (ws : WebSocket) :
  socket s h = Some ws -> handle ws = h /\ In h (handles s).
Proof.
  unfold socket. intros H. apply find_some in H. destruct H as [Hin Hh].
  apply Nat.eqb_eq in Hh. split; [exact Hh|].
  unfold handles. apply in_map_iff. exists ws. auto.
Qed.

(** X7: every "joined" and every "state" message a handler sends carries
    the number of participants and the game state as that handler leaves
    them. *)
Theorem counts_are_current (s : GameSession) (e : Event) (h : nat)
    (m : ServerMsg) :
  In (h, m) (snd (deliver s e)) ->
  match m with
  | msg_joined _ _ n gs | msg_state n gs =>
      n = JsMap.size (players (fst (deliver s e))) /\
      gs = gameState (fst (deliver s e))
  | _ => True
  end.
Proof.
  destruct e as [up u | h0 d | h0 | h0]; unfold deliver.
  - unfold fetch. destruct up; cbn [negb]; [|intros []].
    destruct (2 <=? JsMap.size (players s)); [intros []|].
    cbv beta iota zeta delta [fst snd].
    intros [H|H].
    + injection H as <- <-. split; reflexivity.
    + apply In_broadcast in H. subst m. split; reflexivity.
  - destruct (socket s h0) as [ws|]; [|intros []].
    destruct d as [c|]; [|intros []].
    intros H. apply handleSubmit_out in H.
    destruct H as [[_ ->]|[H _]]; [exact I|].
    destruct m; try discriminate; exact I.
  - destruct (socket s h0) as [ws|]; [|intros []].
    unfold webSocketClose. destruct (attachment ws); [|intros []].
    cbn [fst snd players gameState]. intros H.
    apply In_broadcast in H. subst m. split; reflexivity.
  - destruct (socket s h0) as [ws|]; intros [].
Qed.

Lemma counts_are_current_witness :
  In (0, msg_state 2 playing) (snd (deliver (final tr_one) (Fetch true "B")))
  /\ 2 = JsMap.size (players (fst (deliver (final tr_one) (Fetch true "B"))))
  /\ playing = gameState (fst (deliver (final tr_one) (Fetch true "B"))).
Proof.
  assert (In (0, msg_state 2 playing)
             (snd (deliver (final tr_one) (Fetch true "B")))) as H
      by (simpl; auto).
  split; [exact H|].
  exact (counts_are_current (final tr_one) (Fetch true "B") 0
                            (msg_state 2 playing) H).
Defined.

Lemma handleSubmit_quiet (s : GameSession) (h : nat)
    (att : option Attachment) (c : JsVal) :
  reveals (snd (handleSubmit s h att c)) = false ->
  snd (handleSubmit s h att c) = [] \/
  snd (handleSubmit s h att c) = [(h, msg_submitted)].
Proof.
  intros Hr.
  destruct (snd (handleSubmit s h att c)) as [|[h1 m1] out] eqn:E; [auto|].
  right.
  assert (forall h' m, In (h', m) ((h1, m1) :: out) ->
                       h' = h /\ m = msg_submitted) as Hall.
  { intros h' m Hin.
    assert (In (h', m) (snd (handleSubmit s h att c))) as Hin'
        by (rewrite E; exact Hin).
    apply handleSubmit_out in Hin'.
    destruct Hin' as [Hin'|[_ [_ Hrev]]]; [exact Hin'|].
    rewrite E in Hrev. congruence. }
  destruct (Hall h1 m1 (or_introl eq_refl)) as [-> ->].
  destruct out as [|x out]; [reflexivity|]. exfalso.
  revert E. unfold handleSubmit.
  destruct (negb (GameState_eqb (gameState s) playing)); [discriminate|].
  destruct att as [a|]; [|discriminate].
  destruct (_ && _).
  - destruct (find _ _) as [q|]; [destruct (find _ _) as [an|]|]; simpl;
      try discriminate.
    intros E. injection E as E. destruct x as [hx mx].
    destruct (Hall hx mx (or_intror (or_introl eq_refl))) as [_ ->].
    assert (In (hx, msg_submitted)
               (broadcast
                  {| players := JsMap.set (playerId a)
                                  (mkPlayer (att_role a) c) (players s);
                     gameState := revealed;
                     webSockets := serializeAttachment h
                                     (mkAttachment (playerId a) (att_role a) c)
                                     (webSockets s);
                     nextHandle := nextHandle s |}
                  (msg_reveal (submission q) (submission an)))) as Hin
        by (rewrite E; left; reflexivity).
    apply In_broadcast in Hin. discriminate.
  - simpl. discriminate.
Qed.

(** X9: a submit that does not complete a reveal is answered with nothing
    at all or with the single message "submitted" on the submitter's own
    socket; nothing is sent to the other participant. *)
Theorem submit_without_reveal_is_private (s : GameSession) (h : nat)
    (c : JsVal) :
  reveals (snd (deliver s (Message h (submit c)))) = false ->
  snd (deliver s (Message h (submit c))) = [] \/
  snd (deliver s (Message h (submit c))) = [(h, msg_submitted)].
Proof.
  unfold deliver. destruct (socket s h) as [ws|] eqn:Hs; [|auto].
  destruct (socket_handle s h ws Hs) as [Hh _].
  unfold webSocketMessage. rewrite Hh. apply handleSubmit_quiet.
Qed.

Lemma submit_without_reveal_is_private_witness :
  reveals (snd (deliver (final tr_pair) (Message 0 (submit (JStr "q")))))
    = false /\
  (snd (deliver (final tr_pair) (Message 0 (submit (JStr "q")))) = [] \/
   snd (deliver (final tr_pair) (Message 0 (submit (JStr "q"))))
     = [(0, msg_submitted)]).
Proof.
  split; [reflexivity|].
  exact (submit_without_reveal_is_private (final tr_pair) 0 (JStr "q")
                                          eq_refl).
Defined.

(** ** Disconnections and the other participant *)

Lemma close_handles (h : nat) (l : list WebSocket) (x : nat) :
  In x (map handle (close h l)) <-> In x (map handle l) /\ x <> h.
Proof.
  unfold close. rewrite !in_map_iff. split.
  - intros [ws [E Hin]]. apply filter_In in Hin. destruct Hin as [Hin Hf].
    apply negb_true_iff in Hf. apply Nat.eqb_neq in Hf.
    split; [exists ws; auto|congruence].
  - intros [[ws [E Hin]] Hne]. exists ws. split; [exact E|].
    apply filter_In. split; [exact Hin|].
    apply negb_true_iff. apply Nat.eqb_neq. congruence.
Qed.


Lemma get_delete_same {V} (k : string) (m : JsMap.t V) :
  JsMap.get k (JsMap.delete k m) = None.
Proof.
  unfold JsMap.get, JsMap.delete.
  induction m as [|[k' v] m IH]; simpl; [reflexivity|].
  destruct (String.eqb k' k) eqn:E; simpl; [exact IH|].
  rewrite E. exact IH.
Qed.

Lemma get_delete_other {V} (k u : string) (m : JsMap.t V) :
  u <> k -> JsMap.get u (JsMap.delete k m) = JsMap.get u m.
Proof.
  intros Hne. unfold JsMap.get, JsMap.delete.
  induction m as [|[k' v] m IH]; simpl; [reflexivity|].
  destruct (String.eqb k' k) eqn:E; simpl.
  - apply String.eqb_eq in E. subst k'.
    apply not_eq_sym in Hne. apply String.eqb_neq in Hne. rewrite Hne.
    exact IH.
  - destruct (String.eqb k' u); [reflexivity|exact IH].
Qed.

(** X11: when a socket closes, cleanly or by an error, its participant's
    entry, submission included, is gone from the map, and the entry of
    every other participant, with its role and its submission, is kept as
    it was. *)
Theorem disconnect_keeps_others (s : GameSession) (h : nat) (ws : WebSocket)
    (a : Attachment) (e : Event) :
  socket s h = Some ws ->
  attachment ws = Some a ->
  e = Close h \/ e = Error h ->
  JsMap.get (playerId a) (players (fst (deliver s e))) = None /\
  (forall u, u <> playerId a ->
             JsMap.get u (players (fst (deliver s e)))
             = JsMap.get u (players s)).
Proof.
  intros Hs Ha [-> | ->]; unfold deliver; rewrite Hs.
  - unfold webSocketClose. rewrite Ha. cbn [fst players].
    split; [apply get_delete_same|]. intros u Hu.
    apply get_delete_other. exact Hu.
  - unfold webSocketError. rewrite Ha. cbn [fst players].
    split; [apply get_delete_same|]. intros u Hu.
    apply get_delete_other. exact Hu.
Qed.

Lemma disconnect_keeps_others_witness :
  socket (final tr_first_in) 0 = Some (sock 0 "A" question JNull) /\
  JsMap.get "A" (players (fst (deliver (final tr_first_in) (Error 0))))
    = None /\
  JsMap.get "B" (players (fst (deliver (final tr_first_in) (Error 0))))
    = Some (mkPlayer answer (JStr "a")).
Proof.
  destruct (disconnect_keeps_others (final tr_first_in) 0
              (sock 0 "A" question JNull) (mkAttachment "A" question JNull)
              (Error 0) eq_refl eq_refl (or_intror eq_refl)) as [H1 H2].
  split; [reflexivity|]. split; [exact H1|].
  rewrite (H2 "B" ltac:(discriminate)). reflexivity.
Defined.

(** ** Announcements and rejections *)

(** X12: whenever an accepted connection or a clean close changes the
    participant map, every socket that is open afterwards is sent a "state"
    message with the new number of participants and the new game state. *)
Theorem count_changes_are_announced (s : GameSession) (e : Event) (h : nat) :
  (exists up u, e = Fetch up u) \/ (exists h0, e = Close h0) ->
  players (fst (deliver s e)) <> players s ->
  In h (handles (fst (deliver s e))) ->
  In (h, msg_state (JsMap.size (players (fst (deliver s e))))
                   (gameState (fst (deliver s e))))
     (snd (deliver s e)).
Proof.
  intros [[up [u ->]]|[h0 ->]]; unfold deliver.
  - unfold fetch. destruct up; cbn [negb]; [|intros F; contradiction].
    destruct (2 <=? JsMap.size (players s)); [intros F; contradiction|].
    cbv beta iota zeta delta [fst snd]. cbn [players gameState].
    intros _ Hin. right. unfold handles in Hin. unfold broadcast.
    apply in_map_iff in Hin. destruct Hin as [ws [<- Hin]].
    apply in_map_iff. exists ws. auto.
  - destruct (socket s h0) as [ws|]; [|intros F; contradiction].
    unfold webSocketClose.
    destruct (attachment ws) as [a|]; [|intros F; contradiction].
    cbn [fst snd players gameState]. intros _ Hin.
    unfold handles in Hin. cbn [webSockets] in Hin.
    apply close_handles in Hin. destruct Hin as [Hin _].
    unfold broadcast. cbn [webSockets].
    apply in_map_iff in Hin. destruct Hin as [ws0 [<- Hin]].
    apply in_map_iff. exists ws0. auto.
Qed.

Lemma count_changes_are_announced_witness :
  players (fst (deliver (final tr_pair) (Close 1)))
    <> players (final tr_pair) /\
  In 0 (handles (fst (deliver (final tr_pair) (Close 1)))) /\
  In (0, msg_state 1 waiting) (snd (deliver (final tr_pair) (Close 1))).
Proof.
  assert (players (fst (deliver (final tr_pair) (Close 1)))
          <> players (final tr_pair)) as Hp by (simpl; discriminate).
  assert (In 0 (handles (fst (deliver (final tr_pair) (Close 1))))) as Hh
      by (simpl; auto).
  split; [exact Hp|]. split; [exact Hh|].
  exact (count_changes_are_announced (final tr_pair) (Close 1) 0
           (or_intror (ex_intro _ 1 eq_refl)) Hp Hh).
Defined.

(** X13: a request the worker cannot turn into a connection changes no
    session and sends nothing: a request without the WebSocket upgrade is
    answered "Expected WebSocket" by the session its path names, even when
    that session is full, and an upgrade request to a full session is
    answered "Game is full". *)
Theorem worker_rejections (ns : Worker.Namespace) (path : string)
    (upgrade : bool) (uuid g : string) :
  Worker.route path = Worker.ToSession g ->
  upgrade = false \/ 2 <= JsMap.size (players (ns g)) ->
  (forall g', fst (fst (Worker.fetch ns path upgrade uuid)) g' = ns g') /\
  snd (fst (Worker.fetch ns path upgrade uuid))
    = Worker.SessionReply
        (if upgrade then GameIsFull else ExpectedWebSocket) /\
  snd (Worker.fetch ns path upgrade uuid) = [].
Proof.
  intros Hr Hc. unfold Worker.fetch. rewrite Hr.
  assert (fetch (ns g) upgrade uuid
          = (ns g, if upgrade then GameIsFull else ExpectedWebSocket, []))
    as F.
  { unfold fetch. destruct upgrade; cbn [negb]; [|reflexivity].
    destruct Hc as [Hc|Hc]; [discriminate|].
    apply Nat.leb_le in Hc. rewrite Hc. reflexivity. }
  rewrite F. cbn [fst snd]. split; [|split; reflexivity].
  intros g'. unfold Worker.put.
  destruct (String.eqb g' g) eqn:E; [|reflexivity].
  apply String.eqb_eq in E. subst g'. reflexivity.
Qed.

Lemma worker_rejections_witness :
  Worker.route "/ws/calm-owl-3" = Worker.ToSession "calm-owl-3" /\
  2 <= JsMap.size
         (players (Worker.world [Worker.Request "/ws/calm-owl-3" true "A";
                                 Worker.Request "/ws/calm-owl-3" true "B"]
                                "calm-owl-3")) /\
  snd (fst (Worker.fetch
              (Worker.world [Worker.Request "/ws/calm-owl-3" true "A";
                             Worker.Request "/ws/calm-owl-3" true "B"])
              "/ws/calm-owl-3" true "C"))
    = Worker.SessionReply GameIsFull.
Proof.
  assert (2 <= JsMap.size
            (players (Worker.world [Worker.Request "/ws/calm-owl-3" true "A";
                                    Worker.Request "/ws/calm-owl-3" true "B"]
                                   "calm-owl-3"))) as H by (simpl; lia).
  split; [reflexivity|]. split; [exact H|].
  exact (proj1 (proj2 (worker_rejections _ "/ws/calm-owl-3" true "C"
                         "calm-owl-3" eq_refl (or_intror H)))).
Defined.

(** * The object under the runtime *)

(** ** Activities *)

Lemma handleSubmit_capped_fits (oversize : JsVal -> bool) (s : GameSession)
    (h : nat) (att : option Attachment) (c : JsVal) :
  oversize c = false ->
  handleSubmit_capped oversize s h att c = handleSubmit s h att c.
Proof.
  intros Hc. unfold handleSubmit_capped. rewrite Hc.
  destruct (negb (GameState_eqb (gameState s) playing)) eqn:E;
    [|reflexivity].
  unfold handleSubmit. rewrite E. reflexivity.
Qed.

Lemma handleSubmit_capped_oversize (oversize : JsVal -> bool)
    (s : GameSession) (h : nat) (att : option Attachment) (c : JsVal) :
  oversize c = true ->
  handleSubmit_capped oversize s h att c = (s, []).
Proof.
  intros Hc. unfold handleSubmit_capped. rewrite Hc.
  destruct (negb _); reflexivity.
Qed.

(** An activity does nothing, or is a handler run as in [deliver], or
    builds the object again. *)
Lemma act_cases (oversize : JsVal -> bool) (s : GameSession) (a : Activity) :
  act oversize s a = (s, []) \/
  (exists e, a = Handle e /\ act oversize s a = deliver s e /\
             forall h c, e = Message h (submit c) -> oversize c = false) \/
  (a = Reconstruct /\ act oversize s a = (reconstruct s, [])).
Proof.
  destruct a as [e|]; [|right; right; split; reflexivity].
  destruct e as [up u | h d | h | h];
    try (right; left; eexists; split; [reflexivity|];
         split; [reflexivity|]; intros; discriminate).
  destruct d as [c|].
  - destruct (oversize c) eqn:Hc.
    + left. simpl. destruct (socket s h); [|reflexivity].
      apply handleSubmit_capped_oversize. exact Hc.
    + right. left. eexists. split; [reflexivity|]. split.
      * simpl. destruct (socket s h); [|reflexivity].
        apply handleSubmit_capped_fits. exact Hc.
      * intros h0 c0 E. injection E as _ <-. exact Hc.
  - right. left. eexists. split; [reflexivity|]. split.
    + simpl. destruct (socket s h); reflexivity.
    + intros; discriminate.
Qed.

Lemma live_cons (oversize : JsVal -> bool) (s : GameSession) (a : Activity)
    (acts : list Activity) :
  live oversize s (a :: acts) =
  (fst (live oversize (fst (act oversize s a)) acts),
   snd (act oversize s a) :: snd (live oversize (fst (act oversize s a)) acts)).
Proof.
  simpl. destruct (act oversize s a) as [s1 out]. simpl.
  destruct (live oversize s1 acts); reflexivity.
Qed.

Lemma accepted_fetch (s : GameSession) (up : bool) (u : string) :
  accepted s (Fetch up u) = true <->
  up = true /\ JsMap.size (players s) < 2.
Proof.
  unfold accepted, fetch. destruct up; cbn [negb]; [|split; [discriminate|]].
  - destruct (2 <=? JsMap.size (players s)) eqn:E; simpl.
    + apply Nat.leb_le in E. split; [discriminate|]. intros [_ H]. lia.
    + apply Nat.leb_gt in E. split; auto.
  - intros [H _]. discriminate.
Qed.

Lemma rejected_fetch (s : GameSession) (up : bool) (u : string) :
  accepted s (Fetch up u) = false -> deliver s (Fetch up u) = (s, []).
Proof.
  unfold accepted, deliver, fetch. destruct up; cbn [negb]; [|reflexivity].
  destruct (2 <=? JsMap.size (players s)); [reflexivity|]. discriminate.
Qed.

(** ** Transitions of the game state *)

Lemma transitions_deliver (s : GameSession) (e : Event) :
  gameState (fst (deliver s e)) <> gameState s ->
  (gameState (fst (deliver s e)) = playing /\
   JsMap.size (players (fst (deliver s e))) = 2 /\
   exists u, e = Fetch true u /\ accepted s (Fetch true u) = true) \/
  (gameState (fst (deliver s e)) = revealed /\
   gameState s = playing /\
   exists h c, e = Message h (submit c)) \/
  (gameState (fst (deliver s e)) = waiting /\
   gameState s <> revealed /\
   exists h, e = Close h).
Proof.
  destruct e as [up u | h d | h | h].
  - destruct (accepted s (Fetch up u)) eqn:A.
    2:{ rewrite (rejected_fetch s up u A). intros F; contradiction. }
    pose proof A as A'. apply accepted_fetch in A'. destruct A' as [-> Hlt].
    unfold deliver, fetch. cbn [negb].
    apply Nat.leb_gt in Hlt. rewrite Hlt.
    cbv beta iota zeta delta [fst]. cbn [gameState players].
    destruct (JsMap.size _ =? 2) eqn:E; [|intros F; contradiction].
    intros _. left. apply Nat.eqb_eq in E. eauto.
  - unfold deliver.
    destruct (socket s h) as [ws|]; [|intros F; contradiction].
    destruct d as [c|]; [|intros F; contradiction].
    unfold webSocketMessage, handleSubmit.
    destruct (GameState_eqb (gameState s) playing) eqn:G;
      [|intros F; contradiction].
    apply GameState_eqb_eq in G. cbn [negb].
    destruct (attachment ws) as [a|]; [|intros F; contradiction].
    destruct (_ && _).
    + intros _. right. left.
      destruct (find _ _); [destruct (find _ _)|]; simpl; eauto.
    + intros F; contradiction.
  - unfold deliver.
    destruct (socket s h) as [ws|]; [|intros F; contradiction].
    unfold webSocketClose.
    destruct (attachment ws) as [a|]; [|intros F; contradiction].
    cbn [fst gameState].
    destruct (GameState_eqb (gameState s) revealed) eqn:G; cbn [negb];
      [intros F; contradiction|].
    apply GameState_eqb_neq in G. intros _. right. right.
    destruct (0 <? _); eauto.
  - unfold deliver. destruct (socket s h) as [ws|]; intros F; contradiction.
Qed.

Lemma transitions_act (oversize : JsVal -> bool) (s : GameSession)
    (a : Activity) :
  gameState (fst (act oversize s a)) <> gameState s ->
  (gameState (fst (act oversize s a)) = playing /\
   JsMap.size (players (fst (act oversize s a))) = 2 /\
   exists u, a = Handle (Fetch true u) /\
             accepted s (Fetch true u) = true) \/
  (gameState (fst (act oversize s a)) = revealed /\
   gameState s = playing /\
   exists h c, a = Handle (Message h (submit c)) /\ oversize c = false) \/
  (gameState (fst (act oversize s a)) = waiting /\
   gameState s <> revealed /\
   exists h, a = Handle (Close h)) \/
  (gameState (fst (act oversize s a)) = waiting /\ a = Reconstruct).
Proof.
  destruct (act_cases oversize s a) as [E|[[e [-> [E Hc]]]|[-> E]]];
    rewrite E; cbn [fst].
  - intros F; contradiction.
  - intros H. apply transitions_deliver in H.
    destruct H as [[H1 [H2 [u [-> H3]]]]|[[H1 [H2 [h [c ->]]]]|[H1 [H2 [h ->]]]]].
    + left. eauto.
    + right. left. split; [exact H1|]. split; [exact H2|].
      exists h, c. split; [reflexivity|]. exact (Hc h c eq_refl).
    + right. right. left. eauto.
  - intros _. right. right. right. split; reflexivity.
Qed.

(** X10: the game state changes in four ways and no other.  It becomes
    "playing" only when a connection is accepted and makes two
    participants; it becomes "revealed" only from "playing", on a submit the
    runtime can store; it becomes "waiting" when a socket is closed cleanly
    in a game that is not "revealed", and when the runtime builds the object
    again.  A rejected request, an ignored or oversize message and an error
    termination never change it. *)
Theorem gameState_transitions (oversize : JsVal -> bool) (s : GameSession)
    (a : Activity) :
  gameState (fst (act oversize s a)) <> gameState s ->
  (gameState (fst (act oversize s a)) = playing /\
   JsMap.size (players (fst (act oversize s a))) = 2 /\
   exists u, a = Handle (Fetch true u) /\
             accepted s (Fetch true u) = true) \/
  (gameState (fst (act oversize s a)) = revealed /\
   gameState s = playing /\
   exists h c, a = Handle (Message h (submit c)) /\ oversize c = false) \/
  (gameState (fst (act oversize s a)) = waiting /\
   gameState s <> revealed /\
   exists h, a = Handle (Close h)) \/
  (gameState (fst (act oversize s a)) = waiting /\ a = Reconstruct).
Proof. exact (transitions_act oversize s a). Qed.

Lemma gameState_transitions_witness :
  gameState (fst (act sample_cap (final tr_revealed) Reconstruct))
    <> gameState (final tr_revealed) /\
  gameState (fst (act sample_cap (final tr_revealed) Reconstruct)) = waiting.
Proof.
  assert (gameState (fst (act sample_cap (final tr_revealed) Reconstruct))
          <> gameState (final tr_revealed)) as H by (simpl; discriminate).
  split; [exact H|].
  destruct (gameState_transitions sample_cap (final tr_revealed) Reconstruct H)
    as [[F _]|[[F _]|[[W _]|[W _]]]];
    [discriminate F|discriminate F|exact W|exact W].
Defined.

Lemma not_ready_act (oversize : JsVal -> bool) (s : GameSession)
    (a : Activity) :
  gameState s <> ready -> gameState (fst (act oversize s a)) <> ready.
Proof.
  intros Hs Hr.
  assert (gameState (fst (act oversize s a)) <> gameState s) as Hne
      by congruence.
  destruct (transitions_act oversize s a Hne)
    as [[F _]|[[F _]|[[F _]|[F _]]]]; congruence.
Qed.

(** ** Submitting again *)

Lemma submit_recorded (s : GameSession) (ws : WebSocket) (a : Attachment)
    (content : JsVal) :
  attachment ws = Some a ->
  gameState s = playing ->
  JsMap.get (playerId a)
            (players (fst (webSocketMessage s ws (submit content))))
    = Some (mkPlayer (att_role a) content) /\
  In (handle ws, msg_submitted)
     (snd (webSocketMessage s ws (submit content))).
Proof.
  intros Hatt Hgs. simpl. unfold handleSubmit.
  rewrite Hatt, Hgs. cbn [GameState_eqb negb].
  match goal with |- context [if ?c then _ else _] => destruct c end.
  - destruct (find _ _); [destruct (find _ _)|]; simpl;
      (split; [apply get_set | left; reflexivity]).
  - simpl. split; [apply get_set | left; reflexivity].
Qed.

(** C4, amended: there is no AlreadySubmitted error.  While the game state
    is "playing", every submit of a participant that the runtime can store
    in the socket's attachment, the second included, stores its content as
    that participant's submission, over whatever was stored, and is
    acknowledged with "submitted".  A submit too large for the attachment
    makes [serializeAttachment] throw before anything is stored or sent, and
    once the game state is no longer "playing" (after the reveal) a submit
    is ignored: in both cases the session, the stored submission included,
    stays as it was and nothing is sent. *)
Theorem C4_resubmit (oversize : JsVal -> bool) (s : GameSession)
    (ws : WebSocket) (a : Attachment) (content : JsVal) :
  attachment ws = Some a ->
  (gameState s = playing -> oversize content = false ->
   JsMap.get (playerId a)
     (players (fst (webSocketMessage_capped oversize s ws (submit content))))
     = Some (mkPlayer (att_role a) content) /\
   In (handle ws, msg_submitted)
      (snd (webSocketMessage_capped oversize s ws (submit content)))) /\
  (gameState s = playing -> oversize content = true ->
   webSocketMessage_capped oversize s ws (submit content) = (s, [])) /\
  (gameState s <> playing ->
   webSocketMessage_capped oversize s ws (submit content) = (s, [])).
Proof.
  intros Hatt. unfold webSocketMessage_capped. split; [|split].
  - intros Hgs Hc. rewrite (handleSubmit_capped_fits _ _ _ _ _ Hc).
    exact (submit_recorded s ws a content Hatt Hgs).
  - intros _ Hc. apply handleSubmit_capped_oversize. exact Hc.
  - intros Hgs. apply GameState_eqb_neq in Hgs.
    unfold handleSubmit_capped. rewrite Hgs. reflexivity.
Qed.

Lemma C4_resubmit_witness :
  attachment (sock 0 "A" question (JStr "hi"))
    = Some (mkAttachment "A" question (JStr "hi")) /\
  gameState (final (tr_pair ++ [Message 0 (submit (JStr "hi"))])) = playing /\
  (sample_cap (JStr "bye") = false /\
   JsMap.get "A"
     (players (fst (webSocketMessage_capped sample_cap
                      (final (tr_pair ++ [Message 0 (submit (JStr "hi"))]))
                      (sock 0 "A" question (JStr "hi"))
                      (submit (JStr "bye")))))
     = Some (mkPlayer question (JStr "bye"))) /\
  (sample_cap (JStr "far too long") = true /\
   webSocketMessage_capped sample_cap
     (final (tr_pair ++ [Message 0 (submit (JStr "hi"))]))
     (sock 0 "A" question (JStr "hi")) (submit (JStr "far too long"))
   = (final (tr_pair ++ [Message 0 (submit (JStr "hi"))]), [])) /\
  (gameState (final tr_revealed) <> playing /\
   webSocketMessage_capped sample_cap (final tr_revealed)
     (sock 0 "A" question (JStr "q")) (submit (JStr "bye"))
   = (final tr_revealed, [])).
Proof.
  assert (gameState (final tr_revealed) <> playing) as Hr
      by (simpl; discriminate).
  split; [reflexivity|]. split; [reflexivity|]. split; [|split].
  - split; [reflexivity|].
    exact (proj1 (proj1 (C4_resubmit sample_cap
                    (final (tr_pair ++ [Message 0 (submit (JStr "hi"))]))
                    (sock 0 "A" question (JStr "hi"))
                    (mkAttachment "A" question (JStr "hi"))
                    (JStr "bye") eq_refl) eq_refl eq_refl)).
  - split; [reflexivity|].
    exact (proj1 (proj2 (C4_resubmit sample_cap
                    (final (tr_pair ++ [Message 0 (submit (JStr "hi"))]))
                    (sock 0 "A" question (JStr "hi"))
                    (mkAttachment "A" question (JStr "hi"))
                    (JStr "far too long") eq_refl)) eq_refl eq_refl).
  - split; [exact Hr|].
    exact (proj2 (proj2 (C4_resubmit sample_cap (final tr_revealed)
                    (sock 0 "A" question (JStr "q"))
                    (mkAttachment "A" question (JStr "q"))
                    (JStr "bye") eq_refl)) Hr).
Defined.

(** ** The game state along a life *)

Lemma events_of_cons (a : Activity) (acts : list Activity) :
  events_of (a :: acts) = events_of [a] ++ events_of acts.
Proof. destruct a; reflexivity. Qed.

Lemma shape_act (oversize : JsVal -> bool) (b : bool) (used : list string)
    (s : GameSession) (a : Activity) :
  shape b used s ->
  (forall u, In u (uuids (events_of [a])) -> ~ In u used) ->
  (b = true -> error_free (events_of [a]) = true) ->
  (a = Reconstruct -> webSockets s = []) ->
  shape b (uuids (events_of [a]) ++ used) (fst (act oversize s a)).
Proof.
  intros Hs Hfresh Hb Hidle.
  destruct (act_cases oversize s a) as [E|[[e [-> [E _]]]|[-> E]]];
    rewrite E; cbn [fst].
  - apply (shape_mono b used); [exact Hs|].
    intros x Hx. apply in_or_app. auto.
  - apply shape_step; [exact Hs| |].
    + intros up u ->. apply Hfresh. simpl. auto.
    + intros Hbt. specialize (Hb Hbt). simpl in Hb.
      apply andb_true_iff in Hb. destruct Hb as [Hb _].
      apply negb_true_iff in Hb. exact Hb.
  - specialize (Hidle eq_refl). simpl. unfold reconstruct.
    destruct Hs; simpl in *; try discriminate.
    apply shape_empty; simpl; intros; discriminate.
Qed.

Lemma shape_live (oversize : JsVal -> bool) (b : bool)
    (acts : list Activity) :
  forall (used : list string) (s : GameSession),
    shape b used s ->
    NoDup (uuids (events_of acts)) ->
    (forall u, In u (uuids (events_of acts)) -> ~ In u used) ->
    (b = true -> error_free (events_of acts) = true) ->
    idle_reconstructs oversize s acts = true ->
    shape b (uuids (events_of acts) ++ used) (fst (live oversize s acts)).
Proof.
  induction acts as [|a acts IH]; intros used s Hs Hnd Hfresh Hb Hidle.
  - exact Hs.
  - rewrite live_cons. cbn [fst].
    simpl in Hidle. apply andb_true_iff in Hidle.
    destruct Hidle as [Ha Hidle].
    rewrite events_of_cons, uuids_app in *.
    assert (forall u, In u (uuids (events_of [a])) -> ~ In u used) as Hfa.
    { intros u Hu. apply Hfresh. apply in_or_app. auto. }
    assert (b = true -> error_free (events_of [a]) = true
                        /\ error_free (events_of acts) = true) as Hb2.
    { intros Hbt. specialize (Hb Hbt). unfold error_free in *.
      rewrite forallb_app in Hb. apply andb_true_iff in Hb. exact Hb. }
    assert (shape b (uuids (events_of [a]) ++ used)
                  (fst (act oversize s a))) as H1.
    { apply shape_act; auto.
      - intros Hbt. exact (proj1 (Hb2 Hbt)).
      - intros ->. destruct (webSockets s); [reflexivity|discriminate]. }
    apply (shape_mono b (uuids (events_of acts)
                           ++ uuids (events_of [a]) ++ used)).
    + apply IH; auto.
      * apply NoDup_app_remove_l in Hnd. exact Hnd.
      * intros u Hu Hin. apply in_app_or in Hin. destruct Hin as [Hin|Hin].
        -- exact (NoDup_app_disjoint _ _ Hnd u Hin Hu).
        -- apply (Hfresh u); [apply in_or_app; auto | exact Hin].
      * intros Hbt. exact (proj2 (Hb2 Hbt)).
    + intros x Hx. rewrite !in_app_iff in *. tauto.
Qed.

Lemma not_ready_live (oversize : JsVal -> bool) (acts : list Activity) :
  forall s, gameState s <> ready ->
            gameState (fst (live oversize s acts)) <> ready.
Proof.
  induction acts as [|a acts IH]; intros s Hs; [exact Hs|].
  rewrite live_cons. cbn [fst]. apply IH. apply not_ready_act. exact Hs.
Qed.

Lemma revealed_sticky_act (oversize : JsVal -> bool) (s : GameSession)
    (a : Activity) :
  (forall up u, a <> Handle (Fetch up u)) ->
  a <> Reconstruct ->
  gameState s = revealed ->
  gameState (fst (act oversize s a)) = revealed.
Proof.
  intros Hf Hr Hgs.
  destruct (gameState (fst (act oversize s a))) eqn:G; try reflexivity;
    exfalso;
    assert (gameState (fst (act oversize s a)) <> gameState s) as Hne
        by congruence;
    destruct (transitions_act oversize s a Hne)
      as [[_ [_ [u [F _]]]]|[[_ [F _]]|[[_ [F _]]|[_ F]]]];
    try congruence; exact (Hf true u F).
Qed.

(** After the object was built again while two sockets were connected,
    the game state no longer follows the map. *)
Lemma stale_sockets_drift :
  idle_reconstructs sample_cap constructor life_stale = false /\
  gameState (fst (live sample_cap constructor life_stale)) = waiting /\
  JsMap.size (players (fst (live sample_cap constructor life_stale))) = 2.
Proof. repeat split. Qed.

(** C3, amended: the class has three game states and no "ready": along
    every life of the object the game state is never "ready".  Along every
    life with fresh identifiers in which the runtime builds the object
    again only while no socket is connected, two participants imply
    "playing" or "revealed" and "waiting" implies at most one participant;
    if moreover no socket terminates with an error, a game state other than
    "revealed" is "playing" with two participants and "waiting" with none
    or one.  Once "revealed", the game state stays "revealed" through every
    disconnect (close or error) and every message. *)
Theorem C3_game_state (oversize : JsVal -> bool) :
  (forall acts, gameState (fst (live oversize constructor acts)) <> ready) /\
  (forall acts,
     fresh_uuids (events_of acts) = true ->
     idle_reconstructs oversize constructor acts = true ->
     (JsMap.size (players (fst (live oversize constructor acts))) = 2 ->
      gameState (fst (live oversize constructor acts)) = playing \/
      gameState (fst (live oversize constructor acts)) = revealed) /\
     (gameState (fst (live oversize constructor acts)) = waiting ->
      JsMap.size (players (fst (live oversize constructor acts))) <= 1) /\
     (error_free (events_of acts) = true ->
      gameState (fst (live oversize constructor acts)) <> revealed ->
      gameState (fst (live oversize constructor acts))
      = if JsMap.size (players (fst (live oversize constructor acts))) =? 2
        then playing else waiting)) /\
  (forall s a,
     (forall up u, a <> Handle (Fetch up u)) ->
     a <> Reconstruct ->
     gameState s = revealed ->
     gameState (fst (act oversize s a)) = revealed).
Proof.
  split; [|split].
  - intros acts. apply not_ready_live. discriminate.
  - intros acts Hf Hidle. apply distinct_NoDup in Hf.
    assert (forall b, (b = true -> error_free (events_of acts) = true) ->
                      shape b (uuids (events_of acts))
                            (fst (live oversize constructor acts))) as Hsh.
    { intros b Hb. rewrite <- (app_nil_r (uuids (events_of acts))).
      apply shape_live; auto. constructor; discriminate. }
    pose proof (Hsh false ltac:(discriminate)) as H0.
    split; [|split].
    + shape_cases H0; simpl; auto; discriminate.
    + shape_cases H0; simpl; auto. destruct Hgs; congruence.
    + intros He. pose proof (Hsh true (fun _ => He)) as Hstrict.
      clear H0 Hsh. shape_cases Hstrict; simpl.
      * specialize (Hst eq_refl). destruct gs; congruence.
      * specialize (Hst eq_refl). destruct gs; congruence.
      * destruct Hgs; congruence.
  - exact (revealed_sticky_act oversize).
Qed.

Lemma C3_game_state_witness :
  fresh_uuids (events_of life_idle) = true /\
  idle_reconstructs sample_cap constructor life_idle = true /\
  error_free (events_of life_idle) = true /\
  gameState (fst (live sample_cap constructor life_idle)) <> revealed /\
  gameState (fst (live sample_cap constructor life_idle))
  = (if JsMap.size (players (fst (live sample_cap constructor life_idle)))
        =? 2
     then playing else waiting).
Proof.
  assert (gameState (fst (live sample_cap constructor life_idle))
          <> revealed) as H by (simpl; discriminate).
  split; [reflexivity|]. split; [reflexivity|]. split; [reflexivity|].
  split; [exact H|].
  exact (proj2 (proj2 (proj1 (proj2 (C3_game_state sample_cap))
                             life_idle eq_refl eq_refl))
               eq_refl H).
Defined.

(** ** The reveal along a life *)

Lemma reveal_facts (s : GameSession) (e : Event) :
  reveals (snd (deliver s e)) = true ->
  (exists h c, e = Message h (submit c)) /\
  gameState s = playing /\
  gameState (fst (deliver s e)) = revealed /\
  JsMap.size (players (fst (deliver s e))) = 2 /\
  (forall p, In p (JsMap.values (players (fst (deliver s e)))) ->
             truthy (submission p) = true) /\
  exists q a,
    truthy q = true /\ truthy a = true /\
    filter (fun x : Send => is_reveal (snd x)) (snd (deliver s e))
      = broadcast (fst (deliver s e)) (msg_reveal q a).
Proof.
  revert s e.
  intros s e H.
  destruct (reveal_inversion s e H)
    as (h0 & ws & att & c & pq & pa & He & Hs & Ha & Hgs & Hall & Hq & Hpa
        & Hd).
  rewrite Hd. cbn [fst snd].
  unfold all_submitted in Hall. apply andb_true_iff in Hall.
  destruct Hall as [Hlen Htr]. apply Nat.eqb_eq in Hlen.
  rewrite forallb_forall in Htr.
  split; [exists h0, c; exact He|].
  split; [exact Hgs|]. split; [reflexivity|].
  split; [unfold JsMap.size, JsMap.values in *;
          rewrite length_map in Hlen; exact Hlen|].
  split; [exact Htr|].
  exists (submission pq), (submission pa).
  apply find_some in Hq, Hpa.
  split; [apply Htr; tauto|]. split; [apply Htr; tauto|].
  simpl. apply broadcast_all_reveal. reflexivity.
Qed.

Lemma reveal_converse (s : GameSession) (h : nat) (ws : WebSocket)
    (a : Attachment) (c : JsVal) :
  socket s h = Some ws ->
  attachment ws = Some a ->
  gameState s = playing ->
  JsMap.size (players (fst (deliver s (Message h (submit c))))) = 2 ->
  (forall p,
     In p (JsMap.values
             (players (fst (deliver s (Message h (submit c)))))) ->
     truthy (submission p) = true) ->
  holders question (fst (deliver s (Message h (submit c)))) = 1 ->
  holders answer (fst (deliver s (Message h (submit c)))) = 1 ->
  reveals (snd (deliver s (Message h (submit c)))) = true /\
  gameState (fst (deliver s (Message h (submit c)))) = revealed.
Proof.
  revert s h ws a c.
  intros s h ws a c Hs Ha Hgs.
  assert (handle ws = h) as Hh.
  { unfold socket in Hs. apply find_some in Hs. destruct Hs as [_ Hs].
    apply Nat.eqb_eq in Hs. exact Hs. }
  assert (webSockets s <> []) as Hne.
  { unfold socket in Hs. destruct (webSockets s); [discriminate|].
    discriminate. }
  unfold holders. unfold deliver. rewrite Hs. unfold webSocketMessage.
  rewrite Ha, Hh. rewrite (handleSubmit_players s h a c Hgs).
  rewrite (handleSubmit_playing s h a c Hgs). cbv zeta.
  intros Hsize Htr Hq Hpa.
  assert (all_submitted
            (JsMap.set (playerId a) (mkPlayer (att_role a) c) (players s))
          = true) as Hall.
  { unfold all_submitted. apply andb_true_iff. split.
    - apply Nat.eqb_eq. unfold JsMap.values. rewrite length_map.
      exact Hsize.
    - apply forallb_forall. exact Htr. }
  rewrite Hall.
  destruct (find is_question _) as [pq|] eqn:Eq.
  2:{ apply find_none_filter in Eq. unfold is_question in Eq.
      rewrite Eq in Hq. discriminate. }
  destruct (find is_answer _) as [pa|] eqn:Ea.
  2:{ apply find_none_filter in Ea. unfold is_answer in Ea.
      rewrite Ea in Hpa. discriminate. }
  cbn [fst snd]. split; [|reflexivity].
  unfold reveals. cbn [existsb snd is_reveal orb].
  apply reveals_broadcast; [|reflexivity].
  unfold recorded. cbn [webSockets]. intro F.
  apply (f_equal (@List.length _)) in F.
  rewrite serializeAttachment_length in F.
  destruct (webSockets s); [contradiction|discriminate].
Qed.

Lemma act_fits (oversize : JsVal -> bool) (s : GameSession) (h : nat)
    (c : JsVal) :
  oversize c = false ->
  act oversize s (Handle (Message h (submit c)))
  = deliver s (Message h (submit c)).
Proof.
  intros Hc. simpl. destruct (socket s h); [|reflexivity].
  apply handleSubmit_capped_fits. exact Hc.
Qed.

Lemma reveal_facts_act (oversize : JsVal -> bool) (s : GameSession)
    (a : Activity) :
  reveals (snd (act oversize s a)) = true ->
  (exists h c, a = Handle (Message h (submit c)) /\ oversize c = false) /\
  gameState s = playing /\
  gameState (fst (act oversize s a)) = revealed /\
  JsMap.size (players (fst (act oversize s a))) = 2 /\
  (forall p, In p (JsMap.values (players (fst (act oversize s a)))) ->
             truthy (submission p) = true) /\
  exists q r,
    truthy q = true /\ truthy r = true /\
    filter (fun x : Send => is_reveal (snd x)) (snd (act oversize s a))
      = broadcast (fst (act oversize s a)) (msg_reveal q r).
Proof.
  destruct (act_cases oversize s a) as [E|[[e [-> [E Hc]]]|[-> E]]];
    rewrite E; cbn [fst snd]; try discriminate.
  intros H. destruct (reveal_facts s e H) as [[h [c ->]] Hrest].
  split; [|exact Hrest].
  exists h, c. split; [reflexivity|]. exact (Hc h c eq_refl).
Qed.

(** While the game is not "playing" and no connection is accepted, it does
    not become "playing" and nothing is revealed; a "revealed" game that is
    not built again stays "revealed". *)
Lemma calm_act (oversize : JsVal -> bool) (s : GameSession) (a : Activity) :
  gameState s <> playing ->
  match a with
  | Handle e => negb (accepted s e)
  | Reconstruct => true
  end = true ->
  gameState (fst (act oversize s a)) <> playing /\
  reveals (snd (act oversize s a)) = false /\
  (is_reconstruct a = false -> gameState s = revealed ->
   gameState (fst (act oversize s a)) = revealed).
Proof.
  intros Hgs Hacc.
  assert (forall u, a = Handle (Fetch true u) ->
                    accepted s (Fetch true u) = true -> False) as Hno.
  { intros u -> F. rewrite F in Hacc. discriminate. }
  split; [|split].
  - intros Hp.
    assert (gameState (fst (act oversize s a)) <> gameState s) as Hne
        by congruence.
    destruct (transitions_act oversize s a Hne)
      as [[_ [_ [u [E F]]]]|[[F _]|[[F _]|[F _]]]]; try congruence.
    exact (Hno u E F).
  - destruct (reveals (snd (act oversize s a))) eqn:R; [|reflexivity].
    destruct (reveal_facts_act oversize s a R) as [_ [F _]]. contradiction.
  - intros Hr Hrev.
    destruct (gameState (fst (act oversize s a))) eqn:G; try reflexivity;
      exfalso;
      assert (gameState (fst (act oversize s a)) <> gameState s) as Hne
          by congruence;
      destruct (transitions_act oversize s a Hne)
        as [[_ [_ [u [E F]]]]|[[F _]|[[_ [F _]]|[_ F]]]];
      try congruence; try exact (Hno u E F);
      subst a; discriminate.
Qed.

Lemma calm_live (oversize : JsVal -> bool) (acts : list Activity) :
  forall s,
    gameState s <> playing ->
    no_admission oversize s acts = true ->
    gameState (fst (live oversize s acts)) <> playing /\
    reveal_count (snd (live oversize s acts)) = 0 /\
    (forallb (fun a => negb (is_reconstruct a)) acts = true ->
     gameState s = revealed ->
     gameState (fst (live oversize s acts)) = revealed).
Proof.
  induction acts as [|a acts IH]; intros s Hgs Hn.
  - simpl. auto.
  - simpl in Hn. apply andb_true_iff in Hn. destruct Hn as [Ha Hn].
    destruct (calm_act oversize s a Hgs Ha) as [H1 [H2 H3]].
    destruct (IH _ H1 Hn) as [K1 [K2 K3]].
    rewrite live_cons. cbn [fst snd]. split; [exact K1|]. split.
    + unfold reveal_count in *. simpl. rewrite H2. exact K2.
    + intros Hr Hrev. simpl in Hr. apply andb_true_iff in Hr.
      destruct Hr as [Hr1 Hr2]. apply negb_true_iff in Hr1.
      apply K3; [exact Hr2|]. apply H3; assumption.
Qed.

(** C2, amended: only a submit broadcasts a reveal, and one handler run
    broadcasts at most one: a single reveal message, sent once to each open
    socket.  It is broadcast only for a submit the runtime can store, when
    the game state was "playing" and, after recording, the map holds
    exactly two participants whose submissions are both truthy (not absent
    and not empty); the game state is then "revealed" and both fields of
    the reveal are truthy.  Conversely such a submit handled in the
    "playing" state does broadcast the reveal when, after recording, the map
    holds exactly two participants, one with role "question" and one with
    role "answer", both with truthy submissions.  After a reveal, and
    whenever the game is not "playing", no reveal is broadcast for as long
    as no new connection is accepted, whatever else happens (messages,
    disconnects, rejected requests, the object being built again); and for
    as long as, moreover, the object is not built again, the game state
    stays "revealed". *)
Theorem C2_reveal_condition (oversize : JsVal -> bool) :
  (forall s a,
     reveals (snd (act oversize s a)) = true ->
     (exists h c, a = Handle (Message h (submit c)) /\ oversize c = false) /\
     gameState s = playing /\
     gameState (fst (act oversize s a)) = revealed /\
     JsMap.size (players (fst (act oversize s a))) = 2 /\
     (forall p, In p (JsMap.values (players (fst (act oversize s a)))) ->
                truthy (submission p) = true) /\
     exists q r,
       truthy q = true /\ truthy r = true /\
       filter (fun x : Send => is_reveal (snd x)) (snd (act oversize s a))
         = broadcast (fst (act oversize s a)) (msg_reveal q r)) /\
  (forall s h ws a c,
     socket s h = Some ws ->
     attachment ws = Some a ->
     gameState s = playing ->
     oversize c = false ->
     JsMap.size
       (players (fst (act oversize s (Handle (Message h (submit c)))))) = 2 ->
     (forall p,
        In p (JsMap.values
                (players
                   (fst (act oversize s (Handle (Message h (submit c))))))) ->
        truthy (submission p) = true) ->
     holders question
       (fst (act oversize s (Handle (Message h (submit c))))) = 1 ->
     holders answer
       (fst (act oversize s (Handle (Message h (submit c))))) = 1 ->
     reveals (snd (act oversize s (Handle (Message h (submit c))))) = true /\
     gameState (fst (act oversize s (Handle (Message h (submit c)))))
       = revealed) /\
  (forall s acts,
     gameState s <> playing ->
     no_admission oversize s acts = true ->
     gameState (fst (live oversize s acts)) <> playing /\
     reveal_count (snd (live oversize s acts)) = 0 /\
     (forallb (fun a => negb (is_reconstruct a)) acts = true ->
      gameState s = revealed ->
      gameState (fst (live oversize s acts)) = revealed)).
Proof.
  split; [|split].
  - exact (reveal_facts_act oversize).
  - intros s h ws a c Hs Ha Hgs Hc. rewrite (act_fits oversize s h c Hc).
    exact (reveal_converse s h ws a c Hs Ha Hgs).
  - intros s acts. apply calm_live.
Qed.

Lemma C2_reveal_condition_witness :
  (reveals (snd (act sample_cap (final tr_first_in)
                     (Handle (Message 0 (submit (JStr "q")))))) = true /\
   gameState (final tr_first_in) = playing /\
   gameState (fst (act sample_cap (final tr_first_in)
                       (Handle (Message 0 (submit (JStr "q"))))))
     = revealed) /\
  (socket (final tr_first_in) 0 = Some (sock 0 "A" question JNull) /\
   sample_cap (JStr "q") = false /\
   reveals (snd (act sample_cap (final tr_first_in)
                     (Handle (Message 0 (submit (JStr "q")))))) = true) /\
  (gameState (final tr_revealed) <> playing /\
   no_admission sample_cap (final tr_revealed) life_after = true /\
   reveal_count (snd (live sample_cap (final tr_revealed) life_after)) = 0 /\
   gameState (fst (live sample_cap (final tr_revealed) life_after))
     = revealed).
Proof.
  assert (forall p,
            In p (JsMap.values
                    (players
                       (fst (act sample_cap (final tr_first_in)
                               (Handle (Message 0 (submit (JStr "q")))))))) ->
            truthy (submission p) = true) as Htr.
  { simpl. intros p [<-|[<-|[]]]; reflexivity. }
  assert (gameState (final tr_revealed) <> playing) as Hr
      by (simpl; discriminate).
  split; [|split].
  - pose proof (proj1 (C2_reveal_condition sample_cap) (final tr_first_in)
                      (Handle (Message 0 (submit (JStr "q")))) eq_refl) as H.
    split; [reflexivity|]. split; [exact (proj1 (proj2 H))|].
    exact (proj1 (proj2 (proj2 H))).
  - split; [reflexivity|]. split; [reflexivity|].
    exact (proj1 (proj1 (proj2 (C2_reveal_condition sample_cap))
                        (final tr_first_in) 0
                        (sock 0 "A" question JNull)
                        (mkAttachment "A" question JNull) (JStr "q")
                        eq_refl eq_refl eq_refl eq_refl eq_refl Htr
                        eq_refl eq_refl)).
  - pose proof (proj2 (proj2 (C2_reveal_condition sample_cap))
                      (final tr_revealed) life_after Hr eq_refl) as H.
    split; [exact Hr|]. split; [reflexivity|].
    split; [exact (proj1 (proj2 H))|].
    exact (proj2 (proj2 H) eq_refl eq_refl).
Defined.
